(** * Crows_Nest: trader scoring, snapshot building, holdings fetching and
    ledger reconciliation.

    A shallow embedding of [config.py], [wallet_holdings_analyzer.py] and
    [wallet_score_manager.py].  The scores are rationals ([Q]), their
    arithmetic exact; the value of a holding goes through the arithmetic
    of binary64 floats on its way to the text; Python ints are [Z];
    [dict]s used as maps are [gmap]s and the [set] of seen addresses is a
    [gset]. *)

From Stdlib Require Import QArith Qminmax Qround Qabs Qpower ZArith Lia Lqa.
From Stdlib Require Import Sorted Permutation DecimalString DecimalPos DecimalN.
From stdpp Require Import base option list gmap sets strings.

Local Open Scope Z_scope.

(** ** config.py *)

Module config.
Definition TOP_GAINERS_LIMIT : Z := 2500.
Definition BOT_TRANSACTION_THRESHOLD : Z := 350.
Definition SIGNIFICANT_HOLDING_THRESHOLD : Q := 9000%Q.
Definition MIN_SIGNIFICANT_HOLDINGS : nat := 2.
End config.

(** ** Data model *)

(** One item of the trader-list endpoint, after the [.get(key, 0)] defaults
    and the [float]/[int] conversions of [calculate_trading_score]. *)
Record TraderRecord := mkTraderRecord {
  td_address : string;
  td_pnl : Q;
  td_volume : Q;
  td_trade_count : Z
}.

(** The [TraderMetrics] dataclass; [top_holdings] is [None] until the
    holdings fetch assigns it (and may be assigned Python's [None]). *)
Record TraderMetrics := mkTraderMetrics {
  address : string;
  pnl : Q;
  volume : Q;
  trade_count : Z;
  efficiency_score : Q;
  trading_score : Q;
  top_holdings : option (list string)
}.

(** ** TraderScorer: [WalletAnalyzer.calculate_trading_score] *)

Module Scorer.

(** [min(100, (pnl / volume) * 200) if volume > 0 else 0] *)
Definition efficiency_score_of (p v : Q) : Q :=
  if Qlt_le_dec 0 v then Qmin 100 ((p / v) * 200) else 0%Q.

(** [min(100, pnl / 100000)] *)
Definition pnl_score_of (p : Q) : Q := Qmin 100 (p / 100000).

(** [pnl / trade_count] *)
Definition profit_per_trade (p : Q) (n : Z) : Q := (p / inject_Z n)%Q.

(** [min(100, max(0, (profit_per_trade - 1000) / 19000 * 100))] *)
Definition activity_score_of (p : Q) (n : Z) : Q :=
  Qmin 100 (Qmax 0 ((profit_per_trade p n - 1000) / 19000 * 100)).

(** The fixed-weight blend. *)
Definition blend (e s a : Q) : Q :=
  (e * (33 # 100) + s * (33 # 100) + a * (34 # 100))%Q.

(** The guard of line 196: a record is rejected when
    [trade_count > BOT_TRANSACTION_THRESHOLD or trade_count == 0]. *)
Definition rejected (n : Z) : bool :=
  (config.BOT_TRANSACTION_THRESHOLD <? n) || (n =? 0).

Definition calculate_trading_score (t : TraderRecord) : option TraderMetrics :=
  let p := td_pnl t in
  let v := td_volume t in
  let n := td_trade_count t in
  if rejected n then None
  else
    let e := efficiency_score_of p v in
    let s := pnl_score_of p in
    let a := activity_score_of p n in
    Some {| address := td_address t;
            pnl := p;
            volume := v;
            trade_count := n;
            efficiency_score := e;
            trading_score := blend e s a;
            top_holdings := None |}.

Definition in_0_100 (x : Q) : Prop := (0 <= x)%Q ∧ (x <= 100)%Q.

(** A losing trader, as the gainers-losers endpoint can return. *)
Definition losing_trader : TraderRecord :=
  {| td_address := "L"; td_pnl := (-1000)%Q; td_volume := 1000%Q;
     td_trade_count := 1 |}.

End Scorer.

(** ** Python's stable [list.sort(key=..., reverse=True)]

    A stable sort has exactly one result, so the insertion sort below is
    the function computed by [list.sort]: descending by key, elements with
    equal keys in their original order. *)

Module PySort.
Section Sort.
Context {A : Type} (key : A → Q).

Fixpoint insert_desc (x : A) (l : list A) : list A :=
  match l with
  | [] => [x]
  | y :: l' =>
      if Qlt_le_dec (key x) (key y) then y :: insert_desc x l'
      else x :: l
  end.

Definition sort_desc (l : list A) : list A := foldr insert_desc [] l.

(** Non-increasing by key. *)
Definition desc (a b : A) : Prop := (key b <= key a)%Q.

(** The elements of [l] whose key equals [q], in order. *)
Definition with_key (q : Q) (l : list A) : list A :=
  List.filter (λ x, Qeq_bool (key x) q) l.
End Sort.
End PySort.

(** ** SnapshotBuilder, steps 2 and 3 of [main] *)

Module Snapshot.

(** One iteration of the loop of lines 238-242 over the pair
    [(seen_addresses, processed_traders)]. *)
Definition dedup_step (acc : gset string * list TraderMetrics)
    (trader : TraderRecord) : gset string * list TraderMetrics :=
  let '(seen_addresses, processed_traders) := acc in
  match Scorer.calculate_trading_score trader with
  | Some metrics =>
      if decide (address metrics ∈ seen_addresses) then acc
      else ({[address metrics]} ∪ seen_addresses,
            processed_traders ++ [metrics])
  | None => acc
  end.

Definition process_traders (traders : list TraderRecord) : list TraderMetrics :=
  snd (fold_left dedup_step traders (∅, [])).

(** [processed_traders.sort(key=lambda x: x.trading_score, reverse=True)] *)
Definition sort_traders (processed : list TraderMetrics) : list TraderMetrics :=
  PySort.sort_desc trading_score processed.

(** The first record with the given address that the scorer accepts. *)
Definition first_accepted (a : string) (traders : list TraderRecord)
    : option TraderRecord :=
  List.find (λ t, bool_decide (td_address t = a)
                  && negb (Scorer.rejected (td_trade_count t))) traders.

(** The same address twice: first a record the scorer rejects
    ([trade_count == 0]), then one it accepts. *)
Definition rejected_then_accepted : list TraderRecord :=
  [ {| td_address := "A"; td_pnl := 5000%Q; td_volume := 20000%Q;
       td_trade_count := 0 |};
    {| td_address := "A"; td_pnl := 7000%Q; td_volume := 10000%Q;
       td_trade_count := 5 |} ].

End Snapshot.

(** ** Python floats: binary64, round to nearest, ties to even

    The doubles have no largest one here: overflow is not modelled. *)

Module PyFloat.

(** Round to the nearest integer, ties to even. *)
Definition round_half_even (x : Q) : Z :=
  let f := Qfloor x in
  match (x - inject_Z f ?= 1 # 2)%Q with
  | Lt => f
  | Gt => f + 1
  | Eq => if Z.even f then f else f + 1
  end.

(** [2 ** k], for any integer [k]. *)
Definition pow2 (k : Z) : Q := (2 ^ k)%Q.

(** For a positive [x], the [e] with [2^e <= x < 2^(e+1)]. *)
Definition binade (x : Q) : Z :=
  let k := Z.log2 (Qnum x) - Z.log2 (Z.pos (Qden x)) in
  if Qle_bool (pow2 k) x then k else k - 1.

(** The exponent of the last place of the doubles around [x]: 52 places
    below the leading bit, and not below the last place of the
    subnormals. *)
Definition ulp_exponent (x : Q) : Z :=
  Z.max (binade (Qabs x) - 52) (-1074).

(** The double nearest to [x], the one with the even significand when
    two are equally near. *)
Definition round (x : Q) : Q :=
  if Qeq_bool x 0 then 0%Q
  else
    let u := pow2 (ulp_exponent x) in
    (inject_Z (round_half_even (x / u)) * u)%Q.

(** [float(x)], of an int or of a float. *)
Definition float (x : Q) : Q := round x.

(** [a / b], of two floats. *)
Definition div (a b : Q) : Q := round (a / b).

End PyFloat.

(** ** HoldingsFetcher: the pure part of [get_wallet_holdings]
    (lines 151-164) *)

(** One item of the token-list endpoint.  A missing (or null, or empty)
    ["symbol"] is the empty string, which Python treats as false just as it
    does [None]; a missing ["valueUsd"] is [0], the [.get] default.
    [valueUsd] is the number as Python holds it after decoding: an int, or
    a float, which is a rational of its own.  It is taken to be a finite
    number that is not beyond the doubles: of a larger int [float] raises,
    and the item is not a holding that these lines format. *)
Record Holding := mkHolding {
  symbol : string;
  valueUsd : Q
}.

Module Holdings.

Definition excluded_symbols : list string := ["USDC"; "SOL"].

(** The condition of the list comprehension, conjunct by conjunct. *)
Definition significant (h : Holding) : bool :=
  Qle_bool config.SIGNIFICANT_HOLDING_THRESHOLD (valueUsd h)
  && negb (String.eqb (symbol h) "")
  && negb (Qeq_bool (valueUsd h) 0)
  && negb (bool_decide (symbol h ∈ excluded_symbols)).

Definition digits (n : Z) : string :=
  DecimalString.NilZero.string_of_uint (N.to_uint (Z.to_N n)).

Definition two_digits (n : Z) : string :=
  if n <? 10 then "0" +:+ digits n else digits n.

(** [f"{x:.2f}"], of a float: the exact value of the double, rounded to
    the nearest hundredth, ties to even. *)
Definition format_2f (x : Q) : string :=
  let n := PyFloat.round_half_even (Qabs x * 100) in
  (if Qlt_le_dec x 0 then "-" else "")
    +:+ digits (n / 100) +:+ "." +:+ two_digits (n mod 100).

(** The sort key of line 157: [float(x.get("valueUsd", 0))]. *)
Definition sort_key (h : Holding) : Q := PyFloat.float (valueUsd h).

(** [float(holding.get("valueUsd", 0)) / 1_000_000] *)
Definition value_millions (h : Holding) : Q :=
  PyFloat.div (PyFloat.float (valueUsd h)) 1000000.

(** [f"{holding.get('symbol')} {value_millions:.2f}m"] *)
Definition format_holding (h : Holding) : string :=
  symbol h +:+ " " +:+ format_2f (value_millions h) +:+ "m".

Definition significant_holdings (holdings : list Holding) : list Holding :=
  PySort.sort_desc sort_key (List.filter significant holdings).

Definition formatted_holdings (holdings : list Holding) : list string :=
  map format_holding (significant_holdings holdings).




End Holdings.

(** ** RateLimitedClient and the two fetch loops of [WalletAnalyzer] *)

Module Client.

(** *** The upstream API, as the analyzer observes it *)

Inductive request :=
| GetTraders (offset : Z)        (* gainers-losers, page size 10 *)
| GetTokenList (wallet : string). (* wallet/token_list *)

(** The exceptions the [except] clauses distinguish; all three clauses
    do the same thing. *)
Inductive exn := Timeout | RequestException | OtherException.

(** The decoded body: [data.get("success")] and
    [data.get("data", {}).get("items", [])]. *)
Record payload (A : Type) := mkPayload {
  success : bool;
  items : list A
}.
Arguments mkPayload {A} _ _.
Arguments success {A} _.
Arguments items {A} _.

(** What one [requests.get] does: it raises, or it returns a response
    with a status code and a body; a body of [None] is one on which
    [response.json()], or the [.get] chain that reads it, raises. *)
Inductive outcome (A : Type) :=
| Raises (e : exn)
| Responds (status_code : Z) (body : option (payload A)).
Arguments Raises {A} _.
Arguments Responds {A} _ _.

(** A reply also takes time. *)
Record reply (A : Type) := mkReply {
  elapsed : Q;
  result : outcome A
}.
Arguments mkReply {A} _ _.
Arguments elapsed {A} _.
Arguments result {A} _.

(** *** The analyzer's state and what it does to the world *)

(** Where a [time.sleep] is called from. *)
Inductive sleep_site :=
| Pace      (* _rate_limit *)
| Backoff   (* _handle_rate_limit *)
| Pause.    (* the [except] clauses: [time.sleep(1)] *)

Inductive event :=
| Slept (site : sleep_site) (seconds : Q)
| Got (r : request).

Record state := mkState {
  last_call_time : Q;
  backoff_time : Q;
  holdings_cache : gmap string (list string);
  clock : Q;            (* what [time.time()] returns *)
  calls : nat;          (* requests issued so far *)
  log : list event      (* sleeps and requests, oldest first *)
}.

Definition min_call_interval : Q := 1 # 2.
Definition max_retries : nat := 3.

(** [WalletAnalyzer.__init__], at wall-clock time [t0]. *)
Definition init (t0 : Q) : state :=
  {| last_call_time := 0; backoff_time := min_call_interval;
     holdings_cache := ∅; clock := t0; calls := 0; log := [] |}.

(** A small state monad. *)
Definition M (A : Type) : Type := state → A * state.
Definition ret {A} (a : A) : M A := λ s, (a, s).
Definition bind {A B} (c : M A) (k : A → M B) : M B :=
  λ s, let '(a, s') := c s in k a s'.

Notation "x <- c ;; k" := (bind c (λ x, k))
  (at level 100, c at next level, right associativity).
Notation "c ;; k" := (bind c (λ _, k))
  (at level 100, right associativity).

Definition time_time : M Q := λ s, (clock s, s).

Definition time_sleep (site : sleep_site) (d : Q) : M unit := λ s,
  (tt, {| last_call_time := last_call_time s;
          backoff_time := backoff_time s;
          holdings_cache := holdings_cache s;
          clock := clock s + d;
          calls := calls s;
          log := log s ++ [Slept site d] |}).

Definition get_last_call_time : M Q := λ s, (last_call_time s, s).
Definition set_last_call_time (t : Q) : M unit := λ s,
  (tt, {| last_call_time := t;
          backoff_time := backoff_time s;
          holdings_cache := holdings_cache s;
          clock := clock s; calls := calls s; log := log s |}).

Definition get_backoff_time : M Q := λ s, (backoff_time s, s).
Definition set_backoff_time (b : Q) : M unit := λ s,
  (tt, {| last_call_time := last_call_time s;
          backoff_time := b;
          holdings_cache := holdings_cache s;
          clock := clock s; calls := calls s; log := log s |}).

Definition cache_get (wallet : string) : M (option (list string)) := λ s,
  (holdings_cache s !! wallet, s).
Definition cache_set (wallet : string) (v : list string) : M unit := λ s,
  (tt, {| last_call_time := last_call_time s;
          backoff_time := backoff_time s;
          holdings_cache := <[wallet := v]> (holdings_cache s);
          clock := clock s; calls := calls s; log := log s |}).

(** [requests.get]: the reply is the upstream's answer to the
    [calls]-th request of the run. *)
Definition requests_get {A} (api : nat → reply A) (r : request)
    : M (outcome A) := λ s,
  let rep := api (calls s) in
  (result rep,
   {| last_call_time := last_call_time s;
      backoff_time := backoff_time s;
      holdings_cache := holdings_cache s;
      clock := clock s + elapsed rep;
      calls := S (calls s);
      log := log s ++ [Got r] |}).

Definition _rate_limit : M unit :=
  current_time <- time_time ;;
  last <- get_last_call_time ;;
  b <- get_backoff_time ;;
  let time_since_last_call := (current_time - last)%Q in
  (if Qlt_le_dec time_since_last_call b
   then time_sleep Pace (b - time_since_last_call)
   else ret tt) ;;
  now <- time_time ;;
  set_last_call_time now.

Definition _handle_rate_limit : M unit :=
  b <- get_backoff_time ;;
  set_backoff_time (b * 2) ;;
  b' <- get_backoff_time ;;
  time_sleep Backoff b'.

Definition _reset_backoff : M unit := set_backoff_time min_call_interval.

Section Upstream.
(** The two endpoints.  The first argument is the number of requests
    the run has issued before this one. *)
Variable traders_api : nat → Z → reply TraderRecord.
Variable token_api : nat → string → reply Holding.

(** *** [get_top_traders] *)

(** The [while retry_count < self.max_retries] loop for one offset.
    [remaining] is [max_retries - retry_count]: every [continue] and
    every caught exception adds one to [retry_count], every other path
    leaves the loop.  [remaining = 0] is the exit with
    [retry_count == max_retries]. *)
Fixpoint page_attempts (remaining : nat) (offset : Z)
    (traders : list TraderRecord) : M (list TraderRecord) :=
  match remaining with
  | O => ret traders
  | S remaining' =>
      _rate_limit ;;
      response <- requests_get (λ i, traders_api i offset) (GetTraders offset) ;;
      match response with
      | Raises _ =>
          time_sleep Pause 1 ;;
          page_attempts remaining' offset traders
      | Responds status_code body =>
          if status_code =? 429 then
            _handle_rate_limit ;;
            page_attempts remaining' offset traders
          else if negb (status_code =? 200) then ret traders
          else match body with
               | None =>
                   time_sleep Pause 1 ;;
                   page_attempts remaining' offset traders
               | Some data =>
                   if negb (success data) then ret traders
                   else match items data with
                        | [] => ret traders
                        | batch =>
                            _reset_backoff ;;
                            ret (traders ++ batch)
                        end
               end
      end
  end.

Definition fetch_page (offset : Z) (traders : list TraderRecord)
    : M (list TraderRecord) :=
  page_attempts max_retries offset traders.

(** [range(0, limit, 10)] *)
Definition offsets (limit : Z) : list Z :=
  map (λ i, 10 * Z.of_nat i) (seq 0 (Z.to_nat ((limit + 9) / 10))).

(** The [for offset in ...] loop: nothing in its body leaves it. *)
Fixpoint for_offsets (os : list Z) (traders : list TraderRecord)
    : M (list TraderRecord) :=
  match os with
  | [] => ret traders
  | offset :: os' =>
      traders' <- fetch_page offset traders ;;
      for_offsets os' traders'
  end.

Definition get_top_traders (limit : Z) : M (list TraderRecord) :=
  for_offsets (offsets limit) [].

(** *** [get_wallet_holdings] *)

(** The retry loop and what follows it.  The result is Python's return
    value: [Some l] for a list, [None] for [None], which is what the
    function returns when a [break] leaves the loop with
    [retry_count < max_retries]. *)
Fixpoint holdings_attempts (remaining : nat) (wallet : string)
    : M (option (list string)) :=
  match remaining with
  | O => ret (Some [])
  | S remaining' =>
      _rate_limit ;;
      response <- requests_get (λ i, token_api i wallet) (GetTokenList wallet) ;;
      match response with
      | Raises _ =>
          time_sleep Pause 1 ;;
          holdings_attempts remaining' wallet
      | Responds status_code body =>
          if status_code =? 429 then
            _handle_rate_limit ;;
            holdings_attempts remaining' wallet
          else if negb (status_code =? 200) then ret None
          else match body with
               | None =>
                   time_sleep Pause 1 ;;
                   holdings_attempts remaining' wallet
               | Some data =>
                   if negb (success data) then ret None
                   else match items data with
                        | [] =>
                            cache_set wallet [] ;;
                            ret (Some [])
                        | holdings =>
                            let formatted := Holdings.formatted_holdings holdings in
                            cache_set wallet formatted ;;
                            _reset_backoff ;;
                            ret (Some formatted)
                        end
               end
      end
  end.

Definition get_wallet_holdings (wallet : string)
    : M (option (list string)) :=
  cached <- cache_get wallet ;;
  match cached with
  | Some l => ret (Some l)
  | None => holdings_attempts max_retries wallet
  end.

End Upstream.

(** *** Classifying a reply *)

Definition is_429 {A} (o : outcome A) : bool :=
  match o with
  | Responds status_code _ => status_code =? 429
  | Raises _ => false
  end.

(** The replies after which the loops go round again: a 429, an
    exception of [requests.get], or a 200 whose body does not decode. *)
Definition retryable {A} (o : outcome A) : bool :=
  match o with
  | Raises _ => true
  | Responds status_code body =>
      (status_code =? 429)
      || ((status_code =? 200) && bool_decide (body = None))
  end.

(** The replies that land in an [except] clause. *)
Definition fails {A} (o : outcome A) : bool :=
  retryable o && negb (is_429 o).

(** The replies that [break] out of the loops: a status other than 200
    and 429, or a decoded body without the success flag. *)
Definition abandons {A} (o : outcome A) : bool :=
  match o with
  | Raises _ => false
  | Responds status_code body =>
      negb (status_code =? 429)
      && (negb (status_code =? 200)
          || match body with Some d => negb (success d) | None => false end)
  end.


(** The backoff sleeps of [n] consecutive 429 replies, starting from
    the interval [b], and the interval they leave behind. *)
Fixpoint doublings (b : Q) (n : nat) : list Q :=
  match n with
  | O => []
  | S n' => (b * 2)%Q :: doublings (b * 2) n'
  end.

Fixpoint backoff_after (b : Q) (n : nat) : Q :=
  match n with
  | O => b
  | S n' => backoff_after (b * 2) n'
  end.

(** *** Reading the log *)

Definition requests_of (l : list event) : list request :=
  omap (λ e, match e with Got r => Some r | _ => None end) l.

Definition sleeps_of (site : sleep_site) (l : list event) : list Q :=
  omap (λ e, match e, site with
             | Slept Pace d, Pace => Some d
             | Slept Backoff d, Backoff => Some d
             | Slept Pause d, Pause => Some d
             | _, _ => None
             end) l.

(** What the statements below say about a state: the number of
    requests, the backoff interval, the cache, and the requests, backoff
    sleeps and pauses of the log. *)
Definition observe (s : state) :=
  (calls s, backoff_time s, holdings_cache s,
   requests_of (log s), sleeps_of Backoff (log s), sleeps_of Pause (log s)).

End Client.

(** ** [main] of wallet_holdings_analyzer.py, steps 1 to 5 *)

Module Analyzer.
Import Client.

Section Upstream.
Variable traders_api : nat → Z → reply TraderRecord.
Variable token_api : nat → string → reply Holding.

Definition with_holdings (t : TraderMetrics) (h : option (list string))
    : TraderMetrics :=
  {| address := address t; pnl := pnl t; volume := volume t;
     trade_count := trade_count t;
     efficiency_score := efficiency_score t;
     trading_score := trading_score t;
     top_holdings := h |}.

(** Step 4: [trader.top_holdings = analyzer.get_wallet_holdings(...)]
    for every processed trader, in order. *)
Fixpoint attach_holdings (processed : list TraderMetrics)
    : M (list TraderMetrics) :=
  match processed with
  | [] => ret []
  | trader :: rest =>
      h <- get_wallet_holdings token_api (address trader) ;;
      rest' <- attach_holdings rest ;;
      ret (with_holdings trader h :: rest')
  end.

(** Step 5: [trader.top_holdings and len(trader.top_holdings) >= ...] *)
Definition qualified (t : TraderMetrics) : bool :=
  match top_holdings t with
  | Some l =>
      match l with
      | [] => false
      | _ :: _ => bool_decide (config.MIN_SIGNIFICANT_HOLDINGS ≤ length l)%nat
      end
  | None => false
  end.

Definition main : M (list TraderMetrics) :=
  traders <- get_top_traders traders_api config.TOP_GAINERS_LIMIT ;;
  let processed_traders :=
    Snapshot.sort_traders (Snapshot.process_traders traders) in
  with_h <- attach_holdings processed_traders ;;
  ret (List.filter qualified with_h).
End Upstream.
End Analyzer.

(** ** LedgerReconciler: [update_scores] of wallet_score_manager.py *)

(** A row of historical/all_wallets.csv. *)
Record LedgerRecord := mkLedgerRecord {
  Wallet_Address : string;
  composite_score : Q;
  last_seen : string;
  appearances : Z
}.

(** The two columns of output/wallet_holdings.csv that [update_scores]
    reads. *)
Record AnalysisRow := mkAnalysisRow {
  Wallet : string;
  Trading_Score : Q
}.

Module Ledger.

Definition has_wallet (wallet : string) (r : LedgerRecord) : bool :=
  bool_decide (Wallet_Address r = wallet).

(** [historical_df.loc[historical_df['Wallet_Address'] == wallet]]:
    the rows of that wallet, of which the code reads [.iloc[0]]. *)
Definition first_row (wallet : string) (historical_df : list LedgerRecord)
    : option LedgerRecord :=
  List.find (has_wallet wallet) historical_df.

(** [historical_df.loc[mask, 'composite_score'] = new_score] followed by
    [historical_df.loc[mask, 'appearances'] = appearances]. *)
Definition assign_score (wallet : string) (new_score : Q) (n : Z)
    (r : LedgerRecord) : LedgerRecord :=
  if has_wallet wallet r then
    {| Wallet_Address := Wallet_Address r; composite_score := new_score;
       last_seen := last_seen r; appearances := n |}
  else r.

(** [hist_score * 0.7 + current_score * 0.3] *)
Definition blend (hist_score current_score : Q) : Q :=
  (hist_score * (7 # 10) + current_score * (3 # 10))%Q.

(** The body of the loop of lines 72-105; [today] is
    [datetime.now().strftime("%Y-%m-%d")], taken to be the same day
    throughout a run (line 109 overwrites the stamp of a new row with the
    one of the end of the run in any case). *)
Definition process_row (today : string) (historical_df : list LedgerRecord)
    (row : AnalysisRow) : list LedgerRecord :=
  let wallet := Wallet row in
  let current_score := Trading_Score row in
  match first_row wallet historical_df with
  | Some first =>
      let hist_score := composite_score first in
      let n := appearances first + 1 in
      let new_score := blend hist_score current_score in
      map (assign_score wallet new_score n) historical_df
  | None =>
      historical_df ++
        [ {| Wallet_Address := wallet; composite_score := current_score;
             last_seen := today; appearances := 1 |} ]
  end.

(** Lines 108-109: [last_seen] of every wallet of the analysis. *)
Definition touch (today : string) (current_wallets : list string)
    (r : LedgerRecord) : LedgerRecord :=
  if bool_decide (Wallet_Address r ∈ current_wallets) then
    {| Wallet_Address := Wallet_Address r;
       composite_score := composite_score r;
       last_seen := today; appearances := appearances r |}
  else r.

(** [sort_values('composite_score', ascending=False)].  Only that the
    result is a descending rearrangement is used below: pandas does not
    promise an order among equal scores. *)
Definition sort_values (df : list LedgerRecord) : list LedgerRecord :=
  PySort.sort_desc composite_score df.

(** The ledger that [update_scores] writes back to all_wallets.csv. *)
Definition update_scores (today : string) (historical_df : list LedgerRecord)
    (current_df : list AnalysisRow) : list LedgerRecord :=
  let merged := fold_left (process_row today) current_df historical_df in
  let current_wallets := map Wallet current_df in
  sort_values (map (touch today current_wallets) merged).

(** Wallets of the analysis / records they leave alone. *)
Definition untouched (current_df : list AnalysisRow) (r : LedgerRecord) : bool :=
  negb (bool_decide (Wallet_Address r ∈ map Wallet current_df)).

End Ledger.

(** ** Upstream behaviours used in the examples *)

Module Scenario.
Import Client.

(** Every request is answered after a tenth of a second. *)
Definition always {A} (o : outcome A) : nat → reply A :=
  λ _, mkReply (1 # 10) o.

Definition ok {A} (l : list A) : outcome A :=
  Responds 200 (Some (mkPayload true l)).

(** The first [n] requests of the run get [o], the later ones [o']. *)
Definition first_then {A} (n : nat) (o o' : outcome A) : nat → reply A :=
  λ i, mkReply (1 # 10) (if (i <? n)%nat then o else o').

Definition no_traders : nat → Z → reply TraderRecord :=
  λ i _, always (ok []) i.

Definition xyz : list Holding :=
  [ {| symbol := "XYZ"; valueUsd := 15000000 |} ].

(** The process starts at some wall-clock time. *)
Definition start : state := init 1000.
End Scenario.

(** ** What the fetch loops keep true of the analyzer *)

Module Invariant.
Import Client.

(** A [time.sleep] that Python accepts: it raises [ValueError] on a
    negative duration. *)
Definition sleep_ok (e : event) : Prop :=
  match e with
  | Slept _ d => (0 <= d)%Q
  | Got _ => True
  end.

(** The backoff interval is at least the minimum, and no sleep so far
    was negative. *)
Definition backoff_ok (s : state) : Prop :=
  (min_call_interval <= backoff_time s)%Q ∧ Forall sleep_ok (log s).

(** A computation keeps [P]. *)
Definition preserves {A} (P : state → Prop) (c : M A) : Prop :=
  ∀ s, P s → P (c s).2.

End Invariant.

(** ** [main] of wallet_holdings_analyzer.py, step 6: the rows of
    output/wallet_holdings.csv *)

Module Output.

(** A row of the file: the six fixed columns and the columns
    [Top_Holding_1], [Top_Holding_2], ... that the row has. *)
Record CsvRow := mkCsvRow {
  Wallet : string;
  PnL : Q;
  Volume : Q;
  Trade_Count : Z;
  Efficiency_Score : Q;
  Trading_Score : Q;
  Top_Holdings : list string
}.

(** [trader.top_holdings[:5] if trader.top_holdings else []] *)
Definition holdings_columns (trader : TraderMetrics) : list string :=
  match top_holdings trader with
  | Some l => take 5 l
  | None => []
  end.

Definition csv_row (trader : TraderMetrics) : CsvRow :=
  {| Wallet := address trader;
     PnL := pnl trader;
     Volume := volume trader;
     Trade_Count := trade_count trader;
     Efficiency_Score := efficiency_score trader;
     Trading_Score := trading_score trader;
     Top_Holdings := holdings_columns trader |}.

Definition csv_rows (qualified_traders : list TraderMetrics) : list CsvRow :=
  map csv_row qualified_traders.

(** What [update_scores] reads of a row: [row['Wallet']] and
    [row['Trading_Score']]. *)
Definition analysis_row (r : CsvRow) : AnalysisRow :=
  mkAnalysisRow (Wallet r) (Trading_Score r).

Definition current_df (rows : list CsvRow) : list AnalysisRow :=
  map analysis_row rows.

End Output.

(** ** The reporting of [update_scores] and [format_for_crystalized] *)

Module Report.
Import Ledger.

(** Line 83:
    [((new_score - hist_score) / hist_score * 100) if hist_score > 0 else 100] *)
Definition score_change_pct (hist_score new_score : Q) : Q :=
  if Qlt_le_dec 0 hist_score
  then ((new_score - hist_score) / hist_score * 100)%Q
  else 100%Q.

(** An entry of [significant_changes]. *)
Record change := mkChange {
  wallet : string;
  old_score : Q;
  new_score : Q;
  change_pct : Q
}.

(** What the loop of lines 72-105 carries: the ledger and the three
    tracking metrics of lines 64-66. *)
Record tally := mkTally {
  historical_df : list LedgerRecord;
  wallets_updated : nat;
  wallets_new : nat;
  significant_changes : list change
}.

(** The body of the loop, with the bookkeeping that lines 82-95 and 105
    add to [Ledger.process_row].  The test of line 84 is made on the
    exact change; on floats it can fall the other way within a rounding
    of the threshold, so only the number of entries is used below. *)
Definition process_row_tally (today : string) (t : tally) (row : AnalysisRow)
    : tally :=
  let w := Wallet row in
  let current_score := Trading_Score row in
  match first_row w (historical_df t) with
  | Some first =>
      let hist_score := composite_score first in
      let n := appearances first + 1 in
      let new := blend hist_score current_score in
      let pct := score_change_pct hist_score new in
      {| historical_df := map (assign_score w new n) (historical_df t);
         wallets_updated := S (wallets_updated t);
         wallets_new := wallets_new t;
         significant_changes :=
           if negb (Qle_bool (Qabs pct) 20)
           then significant_changes t
                  ++ [ {| wallet := w; old_score := hist_score;
                          new_score := new; change_pct := pct |} ]
           else significant_changes t |}
  | None =>
      {| historical_df :=
           historical_df t ++
             [ {| Wallet_Address := w; composite_score := current_score;
                  last_seen := today; appearances := 1 |} ];
         wallets_updated := wallets_updated t;
         wallets_new := S (wallets_new t);
         significant_changes := significant_changes t |}
  end.

Definition run_loop (today : string) (hist : list LedgerRecord)
    (current_df : list AnalysisRow) : tally :=
  fold_left (process_row_tally today) current_df
    {| historical_df := hist; wallets_updated := 0; wallets_new := 0;
       significant_changes := [] |}.

(** [df.nlargest(n, 'composite_score')]: the [n] rows of largest score, in
    descending order, the earlier row first among equal scores. *)
Definition nlargest (n : nat) (df : list LedgerRecord) : list LedgerRecord :=
  take n (PySort.sort_desc composite_score df).

(** Line 69; an empty frame gives the empty set either way. *)
Definition previous_top_300 (hist : list LedgerRecord) : gset string :=
  list_to_set (map Wallet_Address (nlargest 300 hist)).

(** Line 115, of the sorted ledger: [set(historical_df.head(300)[...])]. *)
Definition new_top_300 (ledger : list LedgerRecord) : gset string :=
  list_to_set (map Wallet_Address (take 300 ledger)).

(** Lines 116-117. *)
Definition dropped_from_top (hist ledger : list LedgerRecord) : gset string :=
  previous_top_300 hist ∖ new_top_300 ledger.
Definition added_to_top (hist ledger : list LedgerRecord) : gset string :=
  new_top_300 ledger ∖ previous_top_300 hist.

End Report.

Module Crystalized.

(** A row of output/crystalized_wallets.csv. *)
Record Row := mkRow {
  Appearances : Z;
  Wallet : string;
  Wallet_Address : string;
  SOL_Balance : Q;
  Token_Value_SOL : Q;
  Token_Count : Q;
  Win_Rate_30d : Q;
  pnl_7d_percent : string;
  pnl_7d_usd : string;
  win_rate : string;
  score : Q
}.

Definition link_prefix : string := "https://gmgn.ai/sol/address/".

(** One iteration of [format_for_crystalized].  The frame it is given is
    a slice of the ledger, which has an [appearances] column and no
    [PnL] column: [row.get('appearances', 1.0)] is the row's value and
    [row.get('PnL', 0)] is [0], which [f"+${0:,.0f}"] writes as [+$0]. *)
Definition format_row (row : LedgerRecord) : Row :=
  let 'mkLedgerRecord row_address row_score _ row_appearances := row in
  {| Appearances := row_appearances;
     Wallet := link_prefix +:+ row_address;
     Wallet_Address := row_address;
     SOL_Balance := 0;
     Token_Value_SOL := 0;
     Token_Count := 0;
     Win_Rate_30d := 0;
     pnl_7d_percent := "+0.00%";
     pnl_7d_usd := "+$0";
     win_rate := "0.00%";
     score := row_score |}.

Definition format_for_crystalized (df : list LedgerRecord) : list Row :=
  map format_row df.

(** Lines 150-151: [format_for_crystalized(historical_df.head(300))]. *)
Definition crystalized_df (ledger : list LedgerRecord) : list Row :=
  format_for_crystalized (take 300 ledger).

(** The address inside a link. *)
Definition address_of_link (link : string) : string :=
  String.substring (String.length link_prefix)
    (String.length link - String.length link_prefix) link.

End Crystalized.


(** * Facts *)

(** ** Lists *)

Section ListFacts.
Lemma find_snoc {A} (f : A → bool) (l : list A) (x : A) :
  List.find f (l ++ [x]) =
    match List.find f l with Some y => Some y | None => List.find f [x] end.
Proof.
  induction l as [|y l IH]; [reflexivity|].
  simpl. by destruct (f y).
Qed.

Lemma find_none_of {A} (f : A → bool) (l : list A) :
  (∀ x, x ∈ l → f x = false) → List.find f l = None.
Proof.
  intros H. destruct (List.find f l) as [y|] eqn:E; [|reflexivity].
  apply find_some in E as [Hin Hf]. apply list_elem_of_In in Hin.
  rewrite (H y Hin) in Hf. discriminate.
Qed.

(** What [find] returns is the first element that passes the test. *)
Lemma find_first {A} (f : A → bool) (l : list A) (x : A) :
  List.find f l = Some x →
  ∃ l1 l2, l = l1 ++ x :: l2 ∧ f x = true ∧ ∀ y, y ∈ l1 → f y = false.
Proof.
  induction l as [|y l IH]; [discriminate|]. simpl.
  destruct (f y) eqn:E.
  - intros [= ->]. exists [], l. split; [reflexivity|]. split; [exact E|].
    intros z Hz. by apply not_elem_of_nil in Hz.
  - intros H. destruct (IH H) as (l1 & l2 & -> & Hx & Hl1).
    exists (y :: l1), l2. split; [reflexivity|]. split; [exact Hx|].
    intros z [->|Hz]%elem_of_cons; [exact E | by apply Hl1].
Qed.

Lemma filter_perm {A} (f : A → bool) (l l' : list A) :
  Permutation l l' → Permutation (List.filter f l) (List.filter f l').
Proof.
  induction 1 as [|x l l' _ IH|x y l|l l' l'' _ IH1 _ IH2]; simpl.
  - reflexivity.
  - destruct (f x); [by constructor | exact IH].
  - destruct (f x), (f y); try reflexivity. apply perm_swap.
  - by etransitivity.
Qed.

(** Mapping a function that fixes every kept record, and keeps no record
    it changes, does not show through the filter. *)
Lemma filter_map_fixed {A} (keep : A → bool) (f : A → A) (l : list A) :
  (∀ x, keep x = true → f x = x) →
  (∀ x, keep (f x) = keep x) →
  List.filter keep (map f l) = List.filter keep l.
Proof.
  intros Hfix Hkeep. induction l as [|x l IH]; [reflexivity|].
  simpl. rewrite Hkeep, IH.
  destruct (keep x) eqn:E; [|reflexivity]. by rewrite Hfix.
Qed.
End ListFacts.

(** ** TraderScorer *)

Section ScorerFacts.
Import Scorer.

Lemma Qdiv_nonneg (p v : Q) : (0 <= p)%Q → (0 < v)%Q → (0 <= p / v)%Q.
Proof.
  intros Hp Hv. apply Qle_shift_div_l; [exact Hv|]. lra.
Qed.

Lemma efficiency_score_le_100 (p v : Q) : (efficiency_score_of p v <= 100)%Q.
Proof.
  unfold efficiency_score_of. destruct (Qlt_le_dec 0 v).
  - apply Q.le_min_l.
  - discriminate.
Qed.

Lemma pnl_score_le_100 (p : Q) : (pnl_score_of p <= 100)%Q.
Proof. apply Q.le_min_l. Qed.

Lemma activity_score_in_range (p : Q) (n : Z) : in_0_100 (activity_score_of p n).
Proof.
  unfold activity_score_of. split.
  - apply Q.min_glb; [discriminate | apply Q.le_max_l].
  - apply Q.le_min_l.
Qed.

Lemma blend_le_100 (e s a : Q) :
  (e <= 100)%Q → (s <= 100)%Q → (a <= 100)%Q → (blend e s a <= 100)%Q.
Proof. unfold blend. intros. lra. Qed.

Lemma blend_nonneg (e s a : Q) :
  (0 <= e)%Q → (0 <= s)%Q → (0 <= a)%Q → (0 <= blend e s a)%Q.
Proof. unfold blend. intros. lra. Qed.

Lemma scores_in_range_of_nonneg_pnl (t : TraderRecord) (m : TraderMetrics) :
  (0 <= td_pnl t)%Q →
  calculate_trading_score t = Some m →
  in_0_100 (efficiency_score m)
  ∧ in_0_100 (pnl_score_of (pnl m))
  ∧ in_0_100 (activity_score_of (pnl m) (trade_count m))
  ∧ in_0_100 (trading_score m).
Proof.
  intros Hp. unfold calculate_trading_score.
  destruct (rejected (td_trade_count t)); [discriminate|].
  intros [= <-]. simpl.
  assert (He : in_0_100 (efficiency_score_of (td_pnl t) (td_volume t))).
  { split; [|apply efficiency_score_le_100].
    unfold efficiency_score_of. destruct (Qlt_le_dec 0 (td_volume t)) as [Hv|Hv].
    - apply Q.min_glb; [discriminate|].
      pose proof (Qdiv_nonneg _ _ Hp Hv). lra.
    - apply Qle_refl. }
  assert (Hs : in_0_100 (pnl_score_of (td_pnl t))).
  { split; [|apply pnl_score_le_100].
    apply Q.min_glb; [discriminate|].
    apply Qdiv_nonneg; [exact Hp | reflexivity]. }
  pose proof (activity_score_in_range (td_pnl t) (td_trade_count t)) as Ha.
  repeat split; try apply He; try apply Hs; try apply Ha.
  - apply blend_nonneg; [apply He | apply Hs | apply Ha].
  - apply blend_le_100; [apply He | apply Hs | apply Ha].
Qed.

(** C1.  The scorer accepts a trader that lost money, here pnl -1000 on
    a volume of 1000 in one trade, and computes efficiency_score -200,
    pnl_score -0.01, activity_score 0 and trading_score -66.0033: the
    upper bound 100 holds for every record, the lower bound 0 only for
    activity_score, the one score the code also clamps from below. *)
Theorem losing_trader_scores_below_zero :
  ∃ m, calculate_trading_score losing_trader = Some m
       ∧ (efficiency_score m == -200)%Q
       ∧ (pnl_score_of (pnl m) == -(1 # 100))%Q
       ∧ (activity_score_of (pnl m) (trade_count m) == 0)%Q
       ∧ (trading_score m == -(660033 # 10000))%Q
       ∧ ¬ in_0_100 (efficiency_score m)
       ∧ ¬ in_0_100 (pnl_score_of (pnl m))
       ∧ ¬ in_0_100 (trading_score m).
Proof.
  eexists. split; [reflexivity|].
  repeat split; try reflexivity; intros [H _]; vm_compute in H; apply H; reflexivity.
Qed.
End ScorerFacts.

(** ** The stable descending sort *)

Section SortFacts.
Import PySort.
Context {A : Type} (key : A → Q).

Lemma insert_desc_perm (x : A) (l : list A) :
  Permutation (insert_desc key x l) (x :: l).
Proof.
  induction l as [|y l IH]; simpl; [reflexivity|].
  destruct (Qlt_le_dec (key x) (key y)); [|reflexivity].
  rewrite IH. apply perm_swap.
Qed.

Lemma sort_desc_perm (l : list A) : Permutation (sort_desc key l) l.
Proof.
  induction l as [|x l IH]; simpl; [reflexivity|].
  rewrite insert_desc_perm. by constructor.
Qed.

Lemma insert_desc_hd (y x : A) (l : list A) :
  desc key y x → HdRel (desc key) y l → HdRel (desc key) y (insert_desc key x l).
Proof.
  intros Hyx Hl. destruct l as [|z l]; simpl; [by constructor|].
  destruct (Qlt_le_dec (key x) (key z)); constructor; [|exact Hyx].
  by inversion Hl.
Qed.

Lemma insert_desc_sorted (x : A) (l : list A) :
  Sorted (desc key) l → Sorted (desc key) (insert_desc key x l).
Proof.
  induction 1 as [|y l Hs IH Hhd]; simpl.
  - repeat constructor.
  - destruct (Qlt_le_dec (key x) (key y)) as [Hlt|Hle].
    + constructor; [exact IH|].
      apply insert_desc_hd; [|exact Hhd]. by apply Qlt_le_weak.
    + constructor; [by constructor|]. by constructor.
Qed.

Lemma sort_desc_sorted (l : list A) : Sorted (desc key) (sort_desc key l).
Proof.
  induction l as [|x l IH]; simpl; [constructor|].
  by apply insert_desc_sorted.
Qed.

Lemma desc_trans (a b c : A) : desc key a b → desc key b c → desc key a c.
Proof. unfold desc. intros Hab Hbc. by eapply Qle_trans. Qed.

Lemma sort_desc_strongly_sorted (l : list A) :
  StronglySorted (desc key) (sort_desc key l).
Proof.
  apply Sorted_StronglySorted; [|apply sort_desc_sorted].
  intros a b c. apply desc_trans.
Qed.

(** Inserting moves [x] only past elements with a strictly larger key,
    so among the elements of any one key nothing is reordered. *)
Lemma insert_desc_with_key (q : Q) (x : A) (l : list A) :
  with_key key q (insert_desc key x l) = with_key key q (x :: l).
Proof.
  induction l as [|y l IH]; [reflexivity|].
  simpl. destruct (Qlt_le_dec (key x) (key y)) as [Hlt|Hle]; [|reflexivity].
  simpl in *. rewrite IH.
  destruct (Qeq_bool (key x) q) eqn:Hx; [|reflexivity].
  destruct (Qeq_bool (key y) q) eqn:Hy; [|reflexivity].
  apply Qeq_bool_iff in Hx, Hy. rewrite Hx, Hy in Hlt.
  by apply Qlt_irrefl in Hlt.
Qed.

Lemma sort_desc_stable (q : Q) (l : list A) :
  with_key key q (sort_desc key l) = with_key key q l.
Proof.
  induction l as [|x l IH]; [reflexivity|].
  simpl. rewrite insert_desc_with_key. simpl. by rewrite IH.
Qed.
End SortFacts.

(** ** Deduplication and sorting of the snapshot *)

Section SnapshotFacts.
Import Scorer Snapshot.



Lemma score_some (t : TraderRecord) (m : TraderMetrics) :
  calculate_trading_score t = Some m →
  address m = td_address t ∧ rejected (td_trade_count t) = false.
Proof.
  unfold calculate_trading_score.
  destruct (rejected (td_trade_count t)); [discriminate|].
  by intros [= <-].
Qed.

Lemma score_none (t : TraderRecord) :
  calculate_trading_score t = None → rejected (td_trade_count t) = true.
Proof.
  unfold calculate_trading_score.
  by destruct (rejected (td_trade_count t)).
Qed.

(** The invariant of the deduplication loop, after any prefix
    [traders] of the fetch. *)
Lemma dedup_invariant (traders : list TraderRecord) :
  let acc := fold_left dedup_step traders (∅, []) in
  (∀ a, a ∈ acc.1 ↔ a ∈ map address acc.2)
  ∧ NoDup (map address acc.2)
  ∧ (∀ m, m ∈ acc.2 →
       ∃ r, first_accepted (address m) traders = Some r
            ∧ calculate_trading_score r = Some m)
  ∧ (∀ r, r ∈ traders → rejected (td_trade_count r) = false →
       td_address r ∈ acc.1).
Proof.
  induction traders as [|t l IH] using rev_ind.
  - simpl. split; [|split; [constructor|split]].
    + intros a. rewrite elem_of_empty. split; [tauto|]. apply not_elem_of_nil.
    + intros m Hm. by apply not_elem_of_nil in Hm.
    + intros r Hr. by apply not_elem_of_nil in Hr.
  - rewrite fold_left_app. simpl.
    destruct (fold_left dedup_step l (∅, [])) as [seen processed].
    simpl in IH. destruct IH as (Hseen & Hnd & Hfirst & Hcov).
    assert (Hold : ∀ m, m ∈ processed →
              ∃ r, first_accepted (address m) (l ++ [t]) = Some r
                   ∧ calculate_trading_score r = Some m).
    { intros m Hm. destruct (Hfirst m Hm) as (r & Hr & Hs).
      exists r. split; [|exact Hs].
      unfold first_accepted in *. by rewrite find_snoc, Hr. }
    unfold dedup_step.
    destruct (calculate_trading_score t) as [m0|] eqn:Hsc.
    + destruct (score_some _ _ Hsc) as [Ha Hacc].
      destruct (decide (address m0 ∈ seen)) as [Hin|Hnin]; simpl.
      * repeat split; try apply Hseen; try done.
        intros r [Hr | ->%list_elem_of_singleton]%elem_of_app Hrej;
          [by apply Hcov | by rewrite <- Ha].
      * split; [|split; [|split]].
        -- intros a. rewrite map_app, elem_of_app, elem_of_union,
             elem_of_singleton, (Hseen a). simpl.
           rewrite list_elem_of_singleton. tauto.
        -- rewrite map_app. simpl. apply NoDup_app. repeat split; [done| |].
           ++ intros a Ha1 ->%list_elem_of_singleton. apply Hnin. by apply Hseen.
           ++ apply NoDup_singleton.
        -- intros m [Hm | ->%list_elem_of_singleton]%elem_of_app; [by apply Hold|].
           exists t. split; [|exact Hsc].
           unfold first_accepted. rewrite find_snoc, find_none_of.
           ++ simpl. rewrite Ha, Hacc. by rewrite bool_decide_eq_true_2.
           ++ intros r Hr. destruct (rejected (td_trade_count r)) eqn:Hrej;
                [by rewrite andb_false_r|].
              rewrite andb_true_r. apply bool_decide_eq_false_2.
              intros Heq. apply Hnin. rewrite <- Heq. by apply Hcov.
        -- intros r [Hr | ->%list_elem_of_singleton]%elem_of_app Hrej.
           ++ apply elem_of_union_r. by apply Hcov.
           ++ rewrite <- Ha. apply elem_of_union_l. by apply elem_of_singleton.
    + apply score_none in Hsc. simpl.
      repeat split; try apply Hseen; try done.
      intros r [Hr | ->%list_elem_of_singleton]%elem_of_app Hrej;
        [by apply Hcov | congruence].
Qed.

(** C6.  For every list of raw trader records the processed snapshot
    holds each address at most once, and the metrics kept for an address
    are those of its first occurrence among the records that the scorer
    does not reject (rejects are dropped before duplicates are): the fetch
    splits at a record with these metrics before which no accepted record
    has that address.  Every address of an accepted record is in the
    snapshot, so the later records of an address are the ones discarded. *)
Theorem first_accepted_occurrence_kept (traders : list TraderRecord) :
  NoDup (map address (process_traders traders))
  ∧ (∀ m, m ∈ process_traders traders →
       ∃ l1 r l2,
         traders = l1 ++ r :: l2
         ∧ calculate_trading_score r = Some m
         ∧ address m ∉ map address (omap calculate_trading_score l1))
  ∧ (∀ r m, r ∈ traders → calculate_trading_score r = Some m →
       address m ∈ map address (process_traders traders)).
Proof.
  destruct (dedup_invariant traders) as (Hseen & Hnd & Hfirst & Hcov).
  unfold process_traders. split; [done|]. split.
  - intros m Hm. destruct (Hfirst m Hm) as (r & Hr & Hs).
    apply find_first in Hr as (l1 & l2 & -> & _ & Hl1).
    exists l1, r, l2. split; [reflexivity|]. split; [exact Hs|].
    intros (m' & Ha & Hm')%list_elem_of_fmap.
    apply list_elem_of_omap in Hm' as (r' & Hr' & Hs').
    destruct (score_some _ _ Hs') as [Ha' Hacc].
    specialize (Hl1 r' Hr'). simpl in Hl1.
    rewrite Hacc, andb_true_r in Hl1.
    apply bool_decide_eq_false in Hl1. congruence.
  - intros r m Hr Hs. destruct (score_some _ _ Hs) as [Ha Hacc].
    rewrite Ha. apply Hseen. by apply Hcov.
Qed.

(** A record that the scorer rejects is not an occurrence of its
    address: the accepted record after it is the one kept. *)
Example rejected_record_is_dropped_first :
  map (λ m, (address m, pnl m)) (process_traders rejected_then_accepted)
  = [("A", 7000%Q)].
Proof. reflexivity. Qed.

(** C7.  After the sort step the processed traders are non-increasing
    by trading_score, they are the same traders as before, and the
    traders of any one score are in the order they had before the sort. *)
Theorem sort_traders_sorted_stable (processed : list TraderMetrics) :
  StronglySorted (PySort.desc trading_score) (sort_traders processed)
  ∧ Permutation (sort_traders processed) processed
  ∧ ∀ q, PySort.with_key trading_score q (sort_traders processed)
         = PySort.with_key trading_score q processed.
Proof.
  unfold sort_traders. split; [apply sort_desc_strongly_sorted|].
  split; [apply sort_desc_perm|]. intros q. apply sort_desc_stable.
Qed.
End SnapshotFacts.

(** ** Floats: rounding to a double and to a hundredth *)

Section FloatFacts.
Import PyFloat.









Lemma round_half_even_Z (m : Z) : round_half_even (inject_Z m) = m.
Proof.
  unfold round_half_even. rewrite Qfloor_Z.
  assert (((inject_Z m - inject_Z m) ?= (1 # 2))%Q = Lt) as ->; [|reflexivity].
  apply (proj1 (Qlt_alt _ _)). lra.
Qed.

Lemma round_half_even_wd (x y : Q) :
  (x == y)%Q → round_half_even x = round_half_even y.
Proof.
  intros H. unfold round_half_even.
  rewrite (Qfloor_comp x y H).
  assert ((x - inject_Z (Qfloor y) ?= 1 # 2)%Q
          = (y - inject_Z (Qfloor y) ?= 1 # 2)%Q) as ->; [|reflexivity].
  apply Qcompare_comp; [by rewrite H | reflexivity].
Qed.

Lemma binade_Z (z : Z) : 0 < z → binade (inject_Z z) = Z.log2 z.
Proof.
  intros Hz. unfold binade. simpl Qnum. simpl Qden.
  change (Z.log2 1) with 0. rewrite Z.sub_0_r.
  assert (Qle_bool (pow2 (Z.log2 z)) (inject_Z z) = true) as ->; [|reflexivity].
  apply Qle_bool_iff. unfold pow2. change 2%Q with (inject_Z 2).
  rewrite <- Zpower_Qpower by apply Z.log2_nonneg.
  rewrite <- Zle_Qle. by apply Z.log2_spec.
Qed.

(** An integer of at most 53 bits is a double. *)
Lemma round_Z (z : Z) : Z.abs z ≤ 2 ^ 53 → (round (inject_Z z) == inject_Z z)%Q.
Proof.
  intros Hz. unfold round.
  destruct (Qeq_bool (inject_Z z) 0) eqn:E.
  { apply Qeq_bool_iff in E. by rewrite E. }
  cbv zeta.
  assert (z ≠ 0) as Hne.
  { intros ->. discriminate. }
  unfold ulp_exponent.
  change (Qabs (inject_Z z)) with (inject_Z (Z.abs z)).
  rewrite binade_Z by lia.
  pose proof (Z.log2_nonneg (Z.abs z)) as Hb0.
  pose proof (Z.log2_spec (Z.abs z) ltac:(lia)) as [Hlo Hhi].
  assert (Z.log2 (Z.abs z) ≤ 53) as Hb.
  { pose proof (Z.log2_le_mono _ _ Hz) as H.
    by rewrite Z.log2_pow2 in H by lia. }
  rewrite Z.max_l by lia.
  destruct (decide (Z.log2 (Z.abs z) = 53)) as [E53|E53].
  - rewrite E53 in *. assert (Z.abs z = 2 ^ 53) as Habs by lia.
    destruct (Z.abs_spec z) as [[_ Hz']|[_ Hz']]; rewrite Hz' in Habs.
    + subst z. reflexivity.
    + assert (z = - 2 ^ 53) as -> by lia. reflexivity.
  - set (b := Z.log2 (Z.abs z)) in *.
    assert (pow2 (b - 52) == / inject_Z (2 ^ (52 - b)))%Q as Hu.
    { unfold pow2. replace (b - 52) with (- (52 - b)) by lia.
      rewrite Qpower_opp. change 2%Q with (inject_Z 2).
      by rewrite <- Zpower_Qpower by lia. }
    assert (0 < inject_Z (2 ^ (52 - b)))%Q as Hpos.
    { change 0%Q with (inject_Z 0). rewrite <- Zlt_Qlt.
      apply Z.pow_pos_nonneg; lia. }
    assert (inject_Z z / pow2 (b - 52) == inject_Z (z * 2 ^ (52 - b)))%Q as Hq.
    { rewrite Hu, inject_Z_mult. field. lra. }
    assert (round_half_even (inject_Z z / pow2 (b - 52)) = z * 2 ^ (52 - b))
      as ->.
    { rewrite (round_half_even_wd _ _ Hq). apply round_half_even_Z. }
    rewrite Hu, inject_Z_mult. field. lra.
Qed.







End FloatFacts.

(** ** Holdings filter and format *)

Section HoldingsFacts.
Import PyFloat Holdings.

Lemma significant_spec (h : Holding) :
  significant h = true →
  (config.SIGNIFICANT_HOLDING_THRESHOLD <= valueUsd h)%Q
  ∧ symbol h ≠ "" ∧ symbol h ≠ "USDC" ∧ symbol h ≠ "SOL".
Proof.
  unfold significant. rewrite !andb_true_iff, !negb_true_iff.
  intros [[[Hv Hs] _] Hx].
  split; [by apply Qle_bool_iff|].
  split; [by apply String.eqb_neq|].
  apply bool_decide_eq_false in Hx. unfold excluded_symbols in Hx.
  rewrite !elem_of_cons in Hx. tauto.
Qed.






End HoldingsFacts.

(** ** Ledger reconciliation *)

Section LedgerFacts.
Import Ledger.



Lemma first_row_some (wallet : string) (df : list LedgerRecord) (r : LedgerRecord) :
  first_row wallet df = Some r → r ∈ df ∧ Wallet_Address r = wallet.
Proof.
  intros [Hin Hw]%find_some. split; [by apply list_elem_of_In|].
  by apply bool_decide_eq_true in Hw.
Qed.

Lemma first_row_none (wallet : string) (df : list LedgerRecord) :
  first_row wallet df = None → ∀ r, r ∈ df → Wallet_Address r ≠ wallet.
Proof.
  intros Hnone r Hin%list_elem_of_In Hw.
  pose proof (find_none _ _ Hnone r Hin) as Hf.
  unfold has_wallet in Hf. by rewrite bool_decide_eq_true_2 in Hf.
Qed.

Lemma has_wallet_assign (w wallet : string) (s : Q) (n : Z) (r : LedgerRecord) :
  has_wallet w (assign_score wallet s n r) = has_wallet w r.
Proof. unfold assign_score. by destruct (has_wallet wallet r). Qed.

Lemma first_row_map_assign (wallet : string) (s : Q) (n : Z)
    (df : list LedgerRecord) (old : LedgerRecord) :
  first_row wallet df = Some old →
  first_row wallet (map (assign_score wallet s n) df)
    = Some {| Wallet_Address := Wallet_Address old; composite_score := s;
              last_seen := last_seen old; appearances := n |}.
Proof.
  unfold first_row. induction df as [|r df IH]; [discriminate|].
  simpl. rewrite has_wallet_assign.
  destruct (has_wallet wallet r) eqn:E; [|exact IH].
  intros [= ->]. unfold assign_score. by rewrite E.
Qed.

Lemma first_row_map_assign_ne (w wallet : string) (s : Q) (n : Z)
    (df : list LedgerRecord) :
  first_row w (map (assign_score wallet s n) df) =
    assign_score wallet s n <$> first_row w df.
Proof.
  unfold first_row. induction df as [|r df IH]; [reflexivity|].
  simpl. rewrite has_wallet_assign.
  destruct (has_wallet w r); [reflexivity | exact IH].
Qed.

(** The first row of a wallet, told without the search: the row before
    which no row has the wallet's address. *)
Lemma first_row_at (w : string) (before after : list LedgerRecord)
    (old : LedgerRecord) :
  Wallet_Address old = w → w ∉ map Wallet_Address before →
  first_row w (before ++ old :: after) = Some old.
Proof.
  intros Hw Hnot. unfold first_row.
  induction before as [|r before IH]; simpl.
  - unfold has_wallet. by rewrite bool_decide_eq_true_2.
  - simpl in Hnot. apply not_elem_of_cons in Hnot as [Hne Hnot].
    unfold has_wallet at 1. rewrite bool_decide_eq_false_2 by congruence.
    by apply IH.
Qed.

Lemma first_row_absent (w : string) (df : list LedgerRecord) :
  w ∉ map Wallet_Address df → first_row w df = None.
Proof.
  intros Hnot. apply find_none_of. intros r Hr.
  apply bool_decide_eq_false_2. intros Hw. apply Hnot.
  rewrite <- Hw. by apply list_elem_of_fmap_2.
Qed.

(** Assigning to the rows of a wallet leaves a frame without it as it
    was. *)
Lemma map_assign_absent (w : string) (s : Q) (n : Z) (df : list LedgerRecord) :
  w ∉ map Wallet_Address df → map (assign_score w s n) df = df.
Proof.
  induction df as [|r df IH]; [reflexivity|]. simpl.
  intros [Hne Hnot]%not_elem_of_cons. rewrite IH by exact Hnot.
  unfold assign_score, has_wallet.
  rewrite bool_decide_eq_false_2 by congruence. reflexivity.
Qed.

(** C2.  For every ledger and every row of the analysis, with incoming
    score S1.  If the ledger has the row's address, its first record
    with that address having score S0 and appearances k, then processing
    the row puts in the place of that record one with the same address,
    composite_score 0.7*S0 + 0.3*S1, appearances k+1 and the last_seen
    it had; the records before it stay, and of those after it the ones
    with this address get the same score and appearances while the
    others stay.  If the address is absent, the ledger is as before with
    one record appended, of composite_score S1 and appearances 1. *)
Theorem process_row_blends_or_inserts (today : string)
    (historical_df : list LedgerRecord) (row : AnalysisRow) :
  let S1 := Trading_Score row in
  (∀ (before after : list LedgerRecord) (old : LedgerRecord),
     historical_df = before ++ old :: after →
     Wallet_Address old = Wallet row →
     Wallet row ∉ map Wallet_Address before →
     let S0 := composite_score old in
     let k := appearances old in
     ∃ new after',
       process_row today historical_df row = before ++ new :: after'
       ∧ Wallet_Address new = Wallet row
       ∧ (composite_score new == (7 # 10) * S0 + (3 # 10) * S1)%Q
       ∧ appearances new = k + 1
       ∧ last_seen new = last_seen old
       ∧ Forall2
           (λ r r',
              if decide (Wallet_Address r = Wallet row)
              then Wallet_Address r' = Wallet_Address r
                   ∧ composite_score r' = composite_score new
                   ∧ appearances r' = k + 1
                   ∧ last_seen r' = last_seen r
              else r' = r)
           after after')
  ∧ (Wallet row ∉ map Wallet_Address historical_df →
     process_row today historical_df row =
       historical_df ++
         [ {| Wallet_Address := Wallet row;
              composite_score := Trading_Score row;
              last_seen := today; appearances := 1 |} ]).
Proof.
  intros S1. split.
  - intros before after old -> Hw Hnot S0 k. unfold process_row.
    rewrite (first_row_at _ _ _ _ Hw Hnot). cbv zeta.
    rewrite map_app, (map_assign_absent _ _ _ _ Hnot), map_cons.
    set (s := blend (composite_score old) (Trading_Score row)).
    assert (assign_score (Wallet row) s (appearances old + 1) old
            = {| Wallet_Address := Wallet_Address old; composite_score := s;
                 last_seen := last_seen old;
                 appearances := appearances old + 1 |}) as ->.
    { unfold assign_score, has_wallet. by rewrite bool_decide_eq_true_2. }
    eexists _, _. split; [reflexivity|].
    cbn [Wallet_Address composite_score appearances last_seen].
    split; [exact Hw|]. split; [unfold s, blend; subst S0 S1; ring|].
    split; [reflexivity|]. split; [reflexivity|].
    apply Forall2_fmap_r, Forall_Forall2_diag, Forall_forall.
    intros r _. unfold compose, assign_score, has_wallet.
    case_bool_decide as E;
      destruct (decide (Wallet_Address r = Wallet row)); done.
  - intros Hnot. unfold process_row. by rewrite (first_row_absent _ _ Hnot).
Qed.

(** Processing a row for the wallet A, of score 50 and on its second
    appearance, whose ledger has a row of B before it. *)
Lemma process_row_blends_or_inserts_witness :
  let b := {| Wallet_Address := "B"; composite_score := 80;
              last_seen := "2024-01-01"; appearances := 1 |} in
  let a := {| Wallet_Address := "A"; composite_score := 50;
              last_seen := "2024-01-01"; appearances := 2 |} in
  let row := {| Wallet := "A"; Trading_Score := 90 |} in
  ∃ new after',
    process_row "2024-01-02" [b; a] row = [b] ++ new :: after'
    ∧ Wallet_Address new = "A"
    ∧ (composite_score new == 62)%Q
    ∧ appearances new = 3
    ∧ last_seen new = "2024-01-01"
    ∧ after' = [].
Proof.
  intros b a row.
  destruct (proj1 (process_row_blends_or_inserts "2024-01-02" [b; a] row)
              [b] [] a eq_refl eq_refl)
    as (new & after' & Hrun & Ha & Hs & Hk & Hl & Hrest).
  { simpl. rewrite list_elem_of_singleton. discriminate. }
  exists new, after'. split; [exact Hrun|]. split; [exact Ha|].
  split; [rewrite Hs; reflexivity|]. split; [exact Hk|]. split; [exact Hl|].
  by apply Forall2_nil_inv_l in Hrest.
Defined.

Lemma process_row_frame (keep : LedgerRecord → bool) (today : string)
    (df : list LedgerRecord) (row : AnalysisRow) :
  (∀ r, Wallet_Address r = Wallet row → keep r = false) →
  List.filter keep (process_row today df row) = List.filter keep df.
Proof.
  intros Hrow. unfold process_row.
  destruct (first_row (Wallet row) df) as [old|].
  - apply filter_map_fixed; intros r; unfold assign_score, has_wallet;
      case_bool_decide as Hw; try reflexivity.
    + rewrite (Hrow r Hw). discriminate.
    + rewrite (Hrow r Hw). by apply Hrow.
  - rewrite List.filter_app. simpl. rewrite Hrow by reflexivity.
    apply app_nil_r.
Qed.

Lemma untouched_row (current_df : list AnalysisRow) (row : AnalysisRow)
    (r : LedgerRecord) :
  row ∈ current_df → Wallet_Address r = Wallet row →
  untouched current_df r = false.
Proof.
  intros Hin Hw. unfold untouched.
  rewrite bool_decide_eq_true_2; [reflexivity|].
  rewrite Hw. by apply list_elem_of_fmap_2.
Qed.

Lemma fold_process_row_frame (keep : LedgerRecord → bool) (today : string)
    (rows : list AnalysisRow) (df : list LedgerRecord) :
  (∀ row r, row ∈ rows → Wallet_Address r = Wallet row → keep r = false) →
  List.filter keep (fold_left (process_row today) rows df) = List.filter keep df.
Proof.
  revert df. induction rows as [|row rows IH]; intros df Hk; [reflexivity|].
  simpl. rewrite IH.
  - apply process_row_frame. intros r. apply Hk. apply list_elem_of_here.
  - intros row' r Hin. apply Hk. by apply list_elem_of_further.
Qed.

Lemma touch_frame (today : string) (current_df : list AnalysisRow)
    (df : list LedgerRecord) :
  List.filter (untouched current_df) (map (touch today (map Wallet current_df)) df)
  = List.filter (untouched current_df) df.
Proof.
  apply filter_map_fixed; intros r; unfold touch, untouched.
  - intros Hk%negb_true_iff. by rewrite Hk.
  - destruct (bool_decide (Wallet_Address r ∈ map Wallet current_df)) eqn:E;
      simpl; by rewrite E.
Qed.

(** C9.  For every ledger and every analysis, the records of the
    wallets that do not occur in the analysis are the same records
    before and after reconciliation, up to their position; reconciling
    an empty analysis leaves every record as it was, up to position. *)
Theorem update_scores_leaves_other_wallets (today : string)
    (historical_df : list LedgerRecord) (current_df : list AnalysisRow) :
  Permutation
    (List.filter (untouched current_df)
       (update_scores today historical_df current_df))
    (List.filter (untouched current_df) historical_df)
  ∧ Permutation (update_scores today historical_df []) historical_df.
Proof.
  split.
  - unfold update_scores, sort_values.
    rewrite (filter_perm _ _ _ (sort_desc_perm composite_score _)).
    rewrite touch_frame, fold_process_row_frame; [reflexivity|].
    intros row r. apply untouched_row.
  - unfold update_scores, sort_values. simpl.
    rewrite sort_desc_perm.
    rewrite (map_ext _ id); [by rewrite map_id|].
    intros r. unfold touch.
    rewrite bool_decide_eq_false_2; [reflexivity | apply not_elem_of_nil].
Qed.


Lemma first_row_process_row_ne (w today : string) (df : list LedgerRecord)
    (row : AnalysisRow) :
  Wallet row ≠ w →
  first_row w (process_row today df row) = first_row w df.
Proof.
  intros Hne. unfold process_row.
  destruct (first_row (Wallet row) df) as [old|].
  - rewrite first_row_map_assign_ne.
    destruct (first_row w df) as [r|] eqn:E; [|reflexivity].
    apply first_row_some in E as [_ Hw]. simpl. f_equal.
    unfold assign_score, has_wallet.
    rewrite bool_decide_eq_false_2; [reflexivity | congruence].
  - unfold first_row. rewrite find_snoc.
    destruct (List.find (has_wallet w) df); [reflexivity|].
    simpl. unfold has_wallet. simpl.
    by rewrite bool_decide_eq_false_2.
Qed.

Lemma fold_process_row_ne (w today : string) (rows : list AnalysisRow)
    (df : list LedgerRecord) :
  w ∉ map Wallet rows →
  first_row w (fold_left (process_row today) rows df) = first_row w df.
Proof.
  revert df. induction rows as [|row rows IH]; intros df Hnot; [reflexivity|].
  simpl in *. apply not_elem_of_cons in Hnot as [Hne Hnot].
  rewrite IH by exact Hnot. apply first_row_process_row_ne. congruence.
Qed.

(** The whole reconciliation, for an analysis that lists each wallet
    once: the ledger that is written back holds, for every row, the
    blended or the new record, stamped with the day of the run. *)
Lemma update_scores_record_of_row (today : string)
    (historical_df : list LedgerRecord) (current_df : list AnalysisRow)
    (row : AnalysisRow) :
  NoDup (map Wallet current_df) → row ∈ current_df →
  ∃ rec,
    rec ∈ update_scores today historical_df current_df
    ∧ Wallet_Address rec = Wallet row
    ∧ last_seen rec = today
    ∧ match first_row (Wallet row) historical_df with
      | Some old =>
          composite_score rec = blend (composite_score old) (Trading_Score row)
          ∧ appearances rec = appearances old + 1
      | None =>
          composite_score rec = Trading_Score row ∧ appearances rec = 1
      end.
Proof.
  intros Hnd Hin.
  apply list_elem_of_split in Hin as (l1 & l2 & ->).
  rewrite map_app in Hnd. simpl in Hnd.
  apply NoDup_app in Hnd as (_ & Hl1 & [Hl2 _]%NoDup_cons).
  assert (Hnot1 : Wallet row ∉ map Wallet l1).
  { intros H. apply (Hl1 _ H). apply list_elem_of_here. }
  set (df1 := fold_left (process_row today) l1 historical_df).
  set (merged := fold_left (process_row today) (l1 ++ row :: l2) historical_df).
  assert (Hmerged : first_row (Wallet row) merged
                    = first_row (Wallet row) (process_row today df1 row)).
  { unfold merged. rewrite fold_left_app. simpl.
    by rewrite fold_process_row_ne. }
  assert (H1 : first_row (Wallet row) df1 = first_row (Wallet row) historical_df)
    by (by apply fold_process_row_ne).
  assert (Hrec : ∃ r, first_row (Wallet row) merged = Some r
            ∧ match first_row (Wallet row) historical_df with
              | Some old =>
                  composite_score r = blend (composite_score old) (Trading_Score row)
                  ∧ appearances r = appearances old + 1
              | None => composite_score r = Trading_Score row ∧ appearances r = 1
              end).
  { rewrite Hmerged, <- H1. unfold process_row.
    destruct (first_row (Wallet row) df1) as [old|] eqn:E.
    - eexists. split; [by apply first_row_map_assign|]. by simpl.
    - eexists. unfold first_row in *. rewrite find_snoc, E. simpl.
      unfold has_wallet. simpl. rewrite bool_decide_eq_true_2 by reflexivity.
      split; [reflexivity|]. by simpl. }
  destruct Hrec as (r & Hr & Hfields).
  apply first_row_some in Hr as [Hrin Hw].
  exists (touch today (map Wallet (l1 ++ row :: l2)) r).
  assert (Htouch : touch today (map Wallet (l1 ++ row :: l2)) r
            = {| Wallet_Address := Wallet_Address r;
                 composite_score := composite_score r;
                 last_seen := today; appearances := appearances r |}).
  { unfold touch. rewrite bool_decide_eq_true_2; [reflexivity|].
    rewrite Hw, map_app, elem_of_app. right. apply list_elem_of_here. }
  split.
  - unfold update_scores, sort_values. apply list_elem_of_In.
    apply (Permutation_in _ (Permutation_sym (sort_desc_perm composite_score _))).
    apply list_elem_of_In. by apply list_elem_of_fmap_2.
  - rewrite Htouch. simpl. repeat split; [exact Hw | exact Hfields].
Qed.

(** The same, with the two cases told by where the wallet stands in the
    ledger that was read: its first record there, or nowhere. *)
Lemma update_scores_known_or_new (today : string)
    (historical_df : list LedgerRecord) (current_df : list AnalysisRow)
    (row : AnalysisRow) :
  NoDup (map Wallet current_df) → row ∈ current_df →
  ∃ rec,
    rec ∈ update_scores today historical_df current_df
    ∧ Wallet_Address rec = Wallet row
    ∧ last_seen rec = today
    ∧ (∀ (before after : list LedgerRecord) (old : LedgerRecord),
         historical_df = before ++ old :: after →
         Wallet_Address old = Wallet row →
         Wallet row ∉ map Wallet_Address before →
         (composite_score rec
          == (7 # 10) * composite_score old + (3 # 10) * Trading_Score row)%Q
         ∧ appearances rec = appearances old + 1)
    ∧ (Wallet row ∉ map Wallet_Address historical_df →
       composite_score rec = Trading_Score row ∧ appearances rec = 1).
Proof.
  intros Hnd Hin.
  destruct (update_scores_record_of_row today historical_df current_df row
              Hnd Hin) as (rec & Hrec & Hw & Hseen & Hcase).
  exists rec. do 3 (split; [assumption|]). split.
  - intros before after old -> Hold Hnot.
    rewrite (first_row_at _ _ _ _ Hold Hnot) in Hcase.
    destruct Hcase as [-> ->]. split; [unfold blend; ring | reflexivity].
  - intros Hnot. by rewrite (first_row_absent _ _ Hnot) in Hcase.
Qed.
End LedgerFacts.

(** ** Fetch loops *)

Section ClientFacts.
Import Client.

Lemma requests_of_snoc (l : list event) (e : event) :
  requests_of (l ++ [e]) =
    requests_of l ++ match e with Got r => [r] | _ => [] end.
Proof. unfold requests_of. rewrite omap_app. by destruct e. Qed.

Lemma sleeps_of_snoc (site : sleep_site) (l : list event) (e : event) :
  sleeps_of site (l ++ [e]) = sleeps_of site l ++ sleeps_of site [e].
Proof. unfold sleeps_of. by rewrite omap_app. Qed.

(** Pacing touches nothing that [observe] shows. *)
Lemma rate_limit_spec (st : state) :
  ∃ st', _rate_limit st = (tt, st') ∧ observe st' = observe st.
Proof.
  unfold _rate_limit, bind, time_time, get_last_call_time, get_backoff_time.
  destruct (Qlt_le_dec (clock st - last_call_time st) (backoff_time st));
    eexists; (split; [reflexivity|]); unfold observe; simpl;
    rewrite ?requests_of_snoc, ?sleeps_of_snoc; simpl;
    by rewrite ?app_nil_r.
Qed.

Variable traders_api : nat → Z → reply TraderRecord.
Variable token_api : nat → string → reply Holding.

(** Enter one iteration of a fetch loop: pace, then issue the request. *)
Ltac enter_iteration st :=
  let st1 := fresh "st1" in
  let Hrl := fresh "Hrl" in
  let Hobs := fresh "Hobs" in
  destruct (rate_limit_spec st) as (st1 & Hrl & Hobs);
  injection Hobs as ? ? ? ? ? ?;
  cbn [holdings_attempts page_attempts];
  unfold bind at 1; rewrite Hrl;
  unfold bind at 1; unfold requests_get at 1; cbn beta iota.

(** Read [observe] off a state that was built by the primitives. *)
Ltac read_observe :=
  unfold observe, _handle_rate_limit, _reset_backoff, bind, time_sleep,
    get_backoff_time, set_backoff_time, cache_set, ret;
  cbn [calls backoff_time holdings_cache log clock last_call_time];
  rewrite ?requests_of_snoc, ?sleeps_of_snoc; cbn [sleeps_of omap];
  rewrite ?app_nil_r;
  repeat match goal with
         | H : ?x = _ |- context [?x] => rewrite H
         end;
  try reflexivity.

Lemma holdings_attempts_retry (r : nat) (w : string) (st : state) :
  let o := result (token_api (calls st) w) in
  retryable o = true →
  ∃ st',
    holdings_attempts token_api (S r) w st = holdings_attempts token_api r w st'
    ∧ observe st' =
        (S (calls st),
         (if is_429 o then backoff_time st * 2 else backoff_time st)%Q,
         holdings_cache st,
         requests_of (log st) ++ [GetTokenList w],
         sleeps_of Backoff (log st)
           ++ (if is_429 o then [(backoff_time st * 2)%Q] else []),
         sleeps_of Pause (log st) ++ (if is_429 o then [] else [1%Q])).
Proof.
  intros o Ho. enter_iteration st.
  replace (calls st1) with (calls st) by congruence. fold o.
  destruct o as [e|sc body]; cbn [retryable is_429] in *.
  - eexists. split; [reflexivity|]. read_observe.
  - destruct (sc =? 429) eqn:E429.
    + eexists. split; [reflexivity|]. read_observe.
    + destruct (sc =? 200); [|discriminate]. simpl in Ho.
      apply bool_decide_eq_true in Ho as ->. simpl.
      eexists. split; [reflexivity|]. read_observe.
Qed.

Lemma holdings_attempts_abandon (r : nat) (w : string) (st : state) :
  abandons (result (token_api (calls st) w)) = true →
  ∃ st',
    holdings_attempts token_api (S r) w st = (None, st')
    ∧ observe st' =
        (S (calls st), backoff_time st, holdings_cache st,
         requests_of (log st) ++ [GetTokenList w],
         sleeps_of Backoff (log st), sleeps_of Pause (log st)).
Proof.
  intros Ho. enter_iteration st.
  replace (calls st1) with (calls st) by congruence.
  destruct (result (token_api (calls st) w)) as [e|sc body];
    cbn [abandons] in Ho; [discriminate|].
  destruct (sc =? 429); [discriminate|].
  destruct (sc =? 200); simpl in Ho |- *.
  - destruct body as [d|]; [|discriminate]. rewrite Ho.
    eexists. split; [reflexivity|]. read_observe.
  - eexists. split; [reflexivity|]. read_observe.
Qed.

Lemma holdings_attempts_success (r : nat) (w : string) (st : state)
    (holdings : list Holding) :
  result (token_api (calls st) w) = Responds 200 (Some (mkPayload true holdings)) →
  ∃ st',
    holdings_attempts token_api (S r) w st
      = (Some (Holdings.formatted_holdings holdings), st')
    ∧ calls st' = S (calls st)
    ∧ holdings_cache st'
        = <[w := Holdings.formatted_holdings holdings]> (holdings_cache st)
    ∧ requests_of (log st') = requests_of (log st) ++ [GetTokenList w]
    ∧ sleeps_of Backoff (log st') = sleeps_of Backoff (log st)
    ∧ sleeps_of Pause (log st') = sleeps_of Pause (log st).
Proof.
  intros Ho. enter_iteration st.
  replace (calls st1) with (calls st) by congruence. rewrite Ho.
  cbn [Z.eqb Pos.eqb negb success items].
  destruct holdings as [|h hs];
    (eexists; split; [reflexivity|]);
    unfold _reset_backoff, bind, cache_set, set_backoff_time, ret;
    cbn [calls backoff_time holdings_cache log];
    rewrite ?requests_of_snoc, ?sleeps_of_snoc; cbn [sleeps_of omap];
    rewrite ?app_nil_r;
    try change (Holdings.formatted_holdings []) with (@nil string);
    repeat split; congruence.
Qed.

Lemma outcome_cases {A} (o : outcome A) :
  retryable o = true ∨ abandons o = true
  ∨ ∃ l, o = Responds 200 (Some (mkPayload true l)).
Proof.
  destruct o as [e|code body]; [by left|].
  destruct body as [[[] l]|]; cbn [retryable abandons success];
    destruct (code =? 429) eqn:E429; destruct (code =? 200) eqn:E200;
    simpl; auto.
  apply Z.eqb_eq in E200 as ->. eauto.
Qed.

Lemma page_attempts_retry (r : nat) (offset : Z) (traders : list TraderRecord)
    (st : state) :
  let o := result (traders_api (calls st) offset) in
  retryable o = true →
  ∃ st',
    page_attempts traders_api (S r) offset traders st
      = page_attempts traders_api r offset traders st'
    ∧ observe st' =
        (S (calls st),
         (if is_429 o then backoff_time st * 2 else backoff_time st)%Q,
         holdings_cache st,
         requests_of (log st) ++ [GetTraders offset],
         sleeps_of Backoff (log st)
           ++ (if is_429 o then [(backoff_time st * 2)%Q] else []),
         sleeps_of Pause (log st) ++ (if is_429 o then [] else [1%Q])).
Proof.
  intros o Ho. enter_iteration st.
  replace (calls st1) with (calls st) by congruence. fold o.
  destruct o as [e|sc body]; cbn [retryable is_429] in *.
  - eexists. split; [reflexivity|]. read_observe.
  - destruct (sc =? 429) eqn:E429.
    + eexists. split; [reflexivity|]. read_observe.
    + destruct (sc =? 200); [|discriminate]. simpl in Ho.
      apply bool_decide_eq_true in Ho as ->. simpl.
      eexists. split; [reflexivity|]. read_observe.
Qed.

Lemma page_attempts_abandon (r : nat) (offset : Z) (traders : list TraderRecord)
    (st : state) :
  abandons (result (traders_api (calls st) offset)) = true →
  ∃ st',
    page_attempts traders_api (S r) offset traders st = (traders, st')
    ∧ observe st' =
        (S (calls st), backoff_time st, holdings_cache st,
         requests_of (log st) ++ [GetTraders offset],
         sleeps_of Backoff (log st), sleeps_of Pause (log st)).
Proof.
  intros Ho. enter_iteration st.
  replace (calls st1) with (calls st) by congruence.
  destruct (result (traders_api (calls st) offset)) as [e|sc body];
    cbn [abandons] in Ho; [discriminate|].
  destruct (sc =? 429); [discriminate|].
  destruct (sc =? 200); simpl in Ho |- *.
  - destruct body as [d|]; [|discriminate]. rewrite Ho.
    eexists. split; [reflexivity|]. read_observe.
  - eexists. split; [reflexivity|]. read_observe.
Qed.

(** A decoded page: an empty one changes nothing, a non-empty one is
    appended and resets the backoff.  Either way the loop for this
    offset is over after the one request. *)
Lemma page_attempts_success (r : nat) (offset : Z) (traders : list TraderRecord)
    (st : state) (batch : list TraderRecord) :
  result (traders_api (calls st) offset) = Responds 200 (Some (mkPayload true batch)) →
  ∃ st',
    page_attempts traders_api (S r) offset traders st = (traders ++ batch, st')
    ∧ observe st' =
        (S (calls st),
         match batch with [] => backoff_time st | _ => min_call_interval end,
         holdings_cache st,
         requests_of (log st) ++ [GetTraders offset],
         sleeps_of Backoff (log st), sleeps_of Pause (log st)).
Proof.
  intros Ho. enter_iteration st.
  replace (calls st1) with (calls st) by congruence. rewrite Ho.
  cbn [Z.eqb Pos.eqb negb success items].
  destruct batch as [|t ts].
  - rewrite app_nil_r. eexists. split; [reflexivity|]. read_observe.
  - eexists. split; [reflexivity|]. read_observe.
Qed.

Lemma is_429_retryable {A} (o : outcome A) : is_429 o = true → retryable o = true.
Proof. destruct o as [e|code body]; simpl; [done|]. by intros ->. Qed.

(** Chain [n] iterations that all go round again. *)
Ltac chain_retries step IH st H :=
  let st1 := fresh "st1" in
  let Hrun := fresh "Hrun" in
  let Hobs := fresh "Hobs" in
  let st2 := fresh "st2" in
  let Hrun2 := fresh "Hrun2" in
  let Hobs2 := fresh "Hobs2" in
  let H0 := fresh "H0" in
  pose proof (H O ltac:(lia)) as H0; rewrite Nat.add_0_r in H0;
  try unfold fails in H0;
  destruct step as (st1 & Hrun & Hobs);
  [first [exact H0 | by apply is_429_retryable
         | by apply andb_true_iff in H0 as [? ?]]|];
  cbn zeta in Hobs;
  first [rewrite H0 in Hobs
        | (apply andb_true_iff in H0 as [_ H0];
           apply negb_true_iff in H0; rewrite H0 in Hobs)];
  injection Hobs as ? ? ? ? ? ?;
  destruct (IH st1) as (st2 & Hrun2 & Hobs2);
  [intros i Hi; replace (calls st1 + i)%nat with (calls st + S i)%nat by lia;
   apply H; lia|];
  injection Hobs2 as ? ? ? ? ? ?;
  exists st2; split; [cbn [Nat.add]; by rewrite Hrun|];
  unfold observe; cbn [doublings backoff_after replicate];
  repeat match goal with
         | E : ?x = _ |- context [?x] => rewrite E
         end;
  rewrite <- ?app_assoc, ?app_nil_r; cbn [app];
  repeat match goal with |- (_, _) = (_, _) => f_equal end;
  first [reflexivity | lia].

Lemma holdings_attempts_429s (n r : nat) (w : string) (st : state) :
  (∀ i, (i < n)%nat → is_429 (result (token_api (calls st + i) w)) = true) →
  ∃ st',
    holdings_attempts token_api (n + r) w st = holdings_attempts token_api r w st'
    ∧ observe st' =
        ((calls st + n)%nat, backoff_after (backoff_time st) n,
         holdings_cache st,
         requests_of (log st) ++ replicate n (GetTokenList w),
         sleeps_of Backoff (log st) ++ doublings (backoff_time st) n,
         sleeps_of Pause (log st)).
Proof.
  revert st. induction n as [|n IH]; intros st H.
  - exists st. split; [reflexivity|]. unfold observe. simpl.
    by rewrite Nat.add_0_r, !app_nil_r.
  - chain_retries (holdings_attempts_retry (n + r) w st) IH st H.
Qed.


Lemma page_attempts_429s (n r : nat) (offset : Z) (traders : list TraderRecord)
    (st : state) :
  (∀ i, (i < n)%nat → is_429 (result (traders_api (calls st + i) offset)) = true) →
  ∃ st',
    page_attempts traders_api (n + r) offset traders st
      = page_attempts traders_api r offset traders st'
    ∧ observe st' =
        ((calls st + n)%nat, backoff_after (backoff_time st) n,
         holdings_cache st,
         requests_of (log st) ++ replicate n (GetTraders offset),
         sleeps_of Backoff (log st) ++ doublings (backoff_time st) n,
         sleeps_of Pause (log st)).
Proof.
  revert st. induction n as [|n IH]; intros st H.
  - exists st. split; [reflexivity|]. unfold observe. simpl.
    by rewrite Nat.add_0_r, !app_nil_r.
  - chain_retries (page_attempts_retry (n + r) offset traders st) IH st H.
Qed.


Lemma fails_retryable {A} (o : outcome A) : fails o = true → retryable o = true.
Proof. unfold fails. by intros [? _]%andb_true_iff. Qed.



Lemma get_wallet_holdings_hit (w : string) (st : state) (l : list string) :
  holdings_cache st !! w = Some l →
  get_wallet_holdings token_api w st = (Some l, st).
Proof.
  intros Hhit. unfold get_wallet_holdings, bind, cache_get. by rewrite Hhit.
Qed.

Lemma get_wallet_holdings_miss (w : string) (st : state) :
  holdings_cache st !! w = None →
  get_wallet_holdings token_api w st = holdings_attempts token_api max_retries w st.
Proof.
  intros Hmiss. unfold get_wallet_holdings, bind, cache_get. by rewrite Hmiss.
Qed.

(** C4, as amended.  A 429 reply doubles the backoff interval, sleeps
    for the doubled interval and uses up one of the three attempts of
    the request.  Three 429 replies in a row abandon the request: the
    holdings fetch returns an empty list and caches nothing, the page
    fetch adds no trader.  After fewer than three, a decoded reply is
    taken as usual. *)
Theorem rate_limited_consumes_attempts (wallet : string) (offset : Z)
    (traders : list TraderRecord) (st : state) :
  holdings_cache st !! wallet = None →
  let b := backoff_time st in
  ((∀ i, (i < 3)%nat →
      is_429 (result (token_api (calls st + i) wallet)) = true) →
   ∃ st',
     get_wallet_holdings token_api wallet st = (Some [], st')
     ∧ observe st' =
         ((calls st + 3)%nat, backoff_after b 3, holdings_cache st,
          requests_of (log st) ++ replicate 3 (GetTokenList wallet),
          sleeps_of Backoff (log st) ++ doublings b 3,
          sleeps_of Pause (log st)))
  ∧ (∀ n holdings, (n < 3)%nat →
       (∀ i, (i < n)%nat →
          is_429 (result (token_api (calls st + i) wallet)) = true) →
       result (token_api (calls st + n) wallet)
         = Responds 200 (Some (mkPayload true holdings)) →
       ∃ st',
         get_wallet_holdings token_api wallet st
           = (Some (Holdings.formatted_holdings holdings), st')
         ∧ calls st' = (calls st + n + 1)%nat
         ∧ sleeps_of Backoff (log st')
             = sleeps_of Backoff (log st) ++ doublings b n)
  ∧ ((∀ i, (i < 3)%nat →
        is_429 (result (traders_api (calls st + i) offset)) = true) →
     ∃ st',
       fetch_page traders_api offset traders st = (traders, st')
       ∧ observe st' =
           ((calls st + 3)%nat, backoff_after b 3, holdings_cache st,
            requests_of (log st) ++ replicate 3 (GetTraders offset),
            sleeps_of Backoff (log st) ++ doublings b 3,
            sleeps_of Pause (log st)))
  ∧ (∀ n batch, (n < 3)%nat →
       (∀ i, (i < n)%nat →
          is_429 (result (traders_api (calls st + i) offset)) = true) →
       result (traders_api (calls st + n) offset)
         = Responds 200 (Some (mkPayload true batch)) →
       ∃ st',
         fetch_page traders_api offset traders st = (traders ++ batch, st')
         ∧ calls st' = (calls st + n + 1)%nat
         ∧ sleeps_of Backoff (log st')
             = sleeps_of Backoff (log st) ++ doublings b n).
Proof.
  intros Hmiss b. subst b. rewrite (get_wallet_holdings_miss _ _ Hmiss).
  unfold fetch_page, max_retries. repeat split.
  - intros H. destruct (holdings_attempts_429s 3 0 wallet st H) as (st' & Hrun & Hobs).
    exists st'. split; [exact Hrun | exact Hobs].
  - intros n holdings Hn H Hok.
    destruct (holdings_attempts_429s n (3 - n) wallet st H) as (st1 & Hrun & Hobs).
    injection Hobs as Hcalls _ _ _ Hbs _.
    replace (n + (3 - n))%nat with 3%nat in Hrun by lia.
    destruct (3 - n)%nat as [|r] eqn:Hr; [lia|].
    rewrite <- Hcalls in Hok.
    destruct (holdings_attempts_success r wallet st1 holdings Hok)
      as (st' & Hrun' & Hcalls' & _ & _ & Hbs' & _).
    exists st'. rewrite Hrun, Hrun'. repeat split; [lia | congruence].
  - intros H.
    destruct (page_attempts_429s 3 0 offset traders st H) as (st' & Hrun & Hobs).
    exists st'. split; [exact Hrun | exact Hobs].
  - intros n batch Hn H Hok.
    destruct (page_attempts_429s n (3 - n) offset traders st H) as (st1 & Hrun & Hobs).
    injection Hobs as Hcalls _ _ _ Hbs _.
    replace (n + (3 - n))%nat with 3%nat in Hrun by lia.
    destruct (3 - n)%nat as [|r] eqn:Hr; [lia|].
    rewrite <- Hcalls in Hok.
    destruct (page_attempts_success r offset traders st1 batch Hok)
      as (st' & Hrun' & Hobs').
    injection Hobs' as Hcalls' _ _ _ Hbs' _.
    exists st'. rewrite Hrun, Hrun'. repeat split; [lia | congruence].
Qed.



(** When every page comes back empty, every offset below the limit is
    still requested. *)
Lemma for_offsets_all_empty (os : list Z) (traders : list TraderRecord)
    (st : state) :
  (∀ i offset,
     result (traders_api i offset) = Responds 200 (Some (mkPayload true []))) →
  ∃ st',
    for_offsets traders_api os traders st = (traders, st')
    ∧ requests_of (log st') = requests_of (log st) ++ map GetTraders os.
Proof.
  intros Hempty. revert st. induction os as [|offset os IH]; intros st.
  - exists st. by rewrite app_nil_r.
  - destruct (page_attempts_success 2 offset traders st [] (Hempty _ _))
      as (st1 & Hrun & Hobs).
    injection Hobs as _ _ _ Hreq _ _. rewrite app_nil_r in Hrun.
    destruct (IH st1) as (st' & Hrun' & Hreq').
    exists st'. cbn [for_offsets]. unfold bind, fetch_page, max_retries.
    rewrite Hrun, Hrun'. split; [reflexivity|].
    rewrite Hreq', Hreq, <- app_assoc. reflexivity.
Qed.
(** Whatever the upstream answers, the loop for one offset issues between
    one and [remaining] requests, all for that offset, and leaves the
    cache alone. *)
Lemma page_attempts_requests (r : nat) (offset : Z) (traders : list TraderRecord)
    (st : state) :
  ∃ k traders' st',
    page_attempts traders_api r offset traders st = (traders', st')
    ∧ (k ≤ r)%nat ∧ ((0 < r)%nat → (0 < k)%nat)
    ∧ calls st' = (calls st + k)%nat
    ∧ requests_of (log st')
        = requests_of (log st) ++ replicate k (GetTraders offset)
    ∧ holdings_cache st' = holdings_cache st.
Proof.
  revert st. induction r as [|r IH]; intros st.
  - exists O, traders, st. simpl. rewrite app_nil_r.
    repeat split; lia.
  - destruct (outcome_cases (result (traders_api (calls st) offset)))
      as [Ho | [Ho | [l Ho]]].
    + destruct (page_attempts_retry r offset traders st Ho)
        as (st1 & Hrun & Hobs).
      injection Hobs as Hcalls _ Hcache Hreq _ _.
      destruct (IH st1) as (k & traders' & st' & Hrun' & Hk & _ & Hc & Hr & Hca).
      exists (S k), traders', st'. rewrite Hrun, Hrun'.
      repeat split; try lia; [|congruence].
      rewrite Hr, Hreq, <- app_assoc. reflexivity.
    + destruct (page_attempts_abandon r offset traders st Ho)
        as (st' & Hrun & Hobs).
      injection Hobs as Hcalls _ Hcache Hreq _ _.
      exists 1%nat, traders, st'. repeat split; try lia; assumption.
    + destruct (page_attempts_success r offset traders st l Ho)
        as (st' & Hrun & Hobs).
      injection Hobs as Hcalls _ Hcache Hreq _ _.
      exists 1%nat, (traders ++ l), st'. repeat split; try lia; assumption.
Qed.

(** The requests of a whole trader fetch: every offset of
    [range(0, limit, 10)], in order, each between one and three times and
    whatever the upstream answers. *)
Lemma get_top_traders_requests (limit : Z) (st : state) :
  ∃ ks traders st',
    get_top_traders traders_api limit st = (traders, st')
    ∧ length ks = length (offsets limit)
    ∧ Forall (λ k, 1 ≤ k ≤ 3)%nat ks
    ∧ requests_of (log st')
        = requests_of (log st)
            ++ concat (zip_with (λ o k, replicate k (GetTraders o))
                         (offsets limit) ks).
Proof.
  unfold get_top_traders. generalize (@nil TraderRecord) as traders.
  revert st. induction (offsets limit) as [|offset os IH]; intros st traders.
  - exists [], traders, st. simpl. rewrite app_nil_r. by repeat split.
  - destruct (page_attempts_requests max_retries offset traders st)
      as (k & traders1 & st1 & Hrun & Hk & Hpos & _ & Hreq & _).
    destruct (IH st1 traders1) as (ks & traders' & st' & Hrun' & Hlen & Hall & Hreq').
    exists (k :: ks), traders', st'. cbn [for_offsets]. unfold bind, fetch_page.
    rewrite Hrun, Hrun'. split; [reflexivity|].
    split; [simpl; lia|]. split.
    + constructor; [|exact Hall]. unfold max_retries in *. lia.
    + rewrite Hreq', Hreq, <- app_assoc. reflexivity.
Qed.

(** Step 4 of [main] keeps every processed trader, in order, whatever the
    upstream answers: a failed holdings fetch costs the trader its
    holdings, not its place. *)
Lemma attach_holdings_keeps_traders (processed : list TraderMetrics) (st : state) :
  map address (Analyzer.attach_holdings token_api processed st).1
    = map address processed.
Proof.
  revert st. induction processed as [|t ts IH]; intros st; [reflexivity|].
  cbn [Analyzer.attach_holdings]. unfold bind.
  destruct (get_wallet_holdings token_api (address t) st) as [h st1].
  specialize (IH st1).
  destruct (Analyzer.attach_holdings token_api ts st1) as [rest st2].
  simpl in *. by rewrite IH.
Qed.

End ClientFacts.

(** ** What the holdings fetch returns *)

Section HoldingsFetchFacts.
Import Client Holdings.
Variable token_api : nat → string → reply Holding.


(** Integers that no double holds are compared as the doubles nearest to
    them: [2^53] and [2^53 + 1] have one key, and keep their order. *)
Example beyond_the_doubles :
  map symbol
    (significant_holdings
       [ {| symbol := "A"; valueUsd := 9007199254740992 |};
         {| symbol := "B"; valueUsd := 9007199254740993 |} ])
  = ["A"; "B"].
Proof. reflexivity. Qed.
End HoldingsFetchFacts.

(** ** The fetch loops at concrete upstreams *)

Section ClientExamples.
Import Client Scenario.

(** C3.  With a limit of 30 and an upstream whose every page is empty,
    the trader fetch requests offsets 0, 10 and 20: the offsets are the
    multiples of 10 below the limit, and the empty page at offset 0 does
    not keep offsets 10 and 20 from being requested. *)
Theorem empty_page_does_not_stop_pagination :
  let '(traders, st') := get_top_traders no_traders 30 start in
  traders = [] ∧
  requests_of (log st') = [GetTraders 0; GetTraders 10; GetTraders 20].
Proof. vm_compute. split; reflexivity. Qed.

(** C4 as stated fails: it is not so that every 429 reply is followed
    by another attempt.  After three of them the request is given up. *)
Lemma rate_limited_request_abandoned :
  ¬ (∀ (token_api : nat → string → reply Holding) (wallet : string)
       (st : state) (n : nat),
       holdings_cache st !! wallet = None →
       (∀ i, (i < n)%nat →
          is_429 (result (token_api (calls st + i)%nat wallet)) = true) →
       (calls st + n < calls (get_wallet_holdings token_api wallet st).2)%nat).
Proof.
  intros H.
  specialize (H (λ i _, always (Responds 429 None) i) "W" start 3%nat
                eq_refl (λ _ _, eq_refl)).
  vm_compute in H. lia.
Qed.


(** C4 at an upstream that always replies 429. *)
Lemma rate_limited_consumes_attempts_witness :
  holdings_cache start !! "W" = None
  ∧ ∃ st',
      get_wallet_holdings (λ i _, always (Responds 429 None) i) "W" start
        = (Some [], st')
      ∧ calls st' = 3%nat
      ∧ sleeps_of Backoff (log st') = [(1 # 2) * 2; (1 # 2) * 2 * 2; (1 # 2) * 2 * 2 * 2]%Q.
Proof.
  split; [reflexivity|].
  destruct (rate_limited_consumes_attempts
              (λ i _, always (Responds 429 None) i)
              (λ i _, always (Responds 429 None) i)
              "W" 0 [] start eq_refl) as (Hcap & _).
  destruct Hcap as (st' & Hrun & Hobs); [intros; reflexivity|].
  exists st'. split; [exact Hrun|].
  injection Hobs as Hcalls _ _ _ Hbs _. split; [exact Hcalls | exact Hbs].
Defined.

(** Two 429 replies, then the holdings: the third attempt succeeds, the
    result is cached and the backoff is back at its minimum. *)
Example two_429_then_holdings :
  let '(res, st') :=
    get_wallet_holdings (λ i _, first_then 2 (Responds 429 None) (ok xyz) i)
      "W" start in
  res = Some ["XYZ 15.00m"]
  ∧ requests_of (log st') = replicate 3 (GetTokenList "W")
  ∧ sleeps_of Backoff (log st') = [(1 # 2) * 2; (1 # 2) * 2 * 2]%Q
  ∧ holdings_cache st' !! "W" = Some ["XYZ 15.00m"]
  ∧ backoff_time st' = min_call_interval.
Proof. vm_compute. repeat split. Qed.
End ClientExamples.


(** ** Reconciliation and snapshot building at concrete inputs *)

Section Examples.
Import Ledger.

(** An empty ledger and an analysis of one wallet A with score 80. *)
Example first_run_inserts :
  update_scores "2024-05-02" [] [ {| Wallet := "A"; Trading_Score := 80 |} ]
  = [ {| Wallet_Address := "A"; composite_score := 80;
         last_seen := "2024-05-02"; appearances := 1 |} ].
Proof. reflexivity. Qed.

(** A ledger with A at 50 after two appearances, and A at 90 in the
    analysis: the new score is 62 and A has appeared three times; B, which
    the analysis does not list, is as it was. *)
Example second_run_blends :
  match update_scores "2024-05-02"
          [ {| Wallet_Address := "A"; composite_score := 50;
               last_seen := "2024-05-01"; appearances := 2 |};
            {| Wallet_Address := "B"; composite_score := 70;
               last_seen := "2024-04-30"; appearances := 1 |} ]
          [ {| Wallet := "A"; Trading_Score := 90 |} ] with
  | [b; a] =>
      b = {| Wallet_Address := "B"; composite_score := 70;
             last_seen := "2024-04-30"; appearances := 1 |}
      ∧ Wallet_Address a = "A" ∧ (composite_score a == 62)%Q
      ∧ last_seen a = "2024-05-02" ∧ appearances a = 3
  | _ => False
  end.
Proof. vm_compute. repeat split. Qed.

(** Three accepted records, the address X twice: the second X is dropped,
    and the sort puts the higher score first. *)
Example dedup_then_sort :
  map address
    (Snapshot.sort_traders
       (Snapshot.process_traders
          [ mkTraderRecord "X" 2000 10000 4;
            mkTraderRecord "Y" 9000 10000 3;
            mkTraderRecord "X" 9000 10000 3 ]))
  = ["Y"; "X"].
Proof. reflexivity. Qed.
End Examples.


(** * Further facts *)

(** ** TraderScorer: the filter, the bounds and monotonicity *)

Section ScorerMore.
Import Scorer.

(** X1.  The scorer returns no metrics exactly for a trade_count of 0 or
    above BOT_TRANSACTION_THRESHOLD; any other count is scored, a negative
    one included, and the metrics carry the address, pnl, volume and
    trade_count of the record, with no holdings yet. *)
Theorem scorer_rejects_exactly_bots_and_idle (t : TraderRecord) :
  (calculate_trading_score t = None
   ↔ td_trade_count t = 0 ∨ config.BOT_TRANSACTION_THRESHOLD < td_trade_count t)
  ∧ (td_trade_count t < 0 → is_Some (calculate_trading_score t))
  ∧ ∀ m, calculate_trading_score t = Some m →
         address m = td_address t ∧ pnl m = td_pnl t
         ∧ volume m = td_volume t ∧ trade_count m = td_trade_count t
         ∧ top_holdings m = None.
Proof.
  unfold calculate_trading_score, rejected, config.BOT_TRANSACTION_THRESHOLD.
  destruct (350 <? td_trade_count t) eqn:Hbot;
    destruct (td_trade_count t =? 0) eqn:Hidle; simpl;
    [apply Z.ltb_lt in Hbot | apply Z.ltb_lt in Hbot | apply Z.ltb_ge in Hbot
    | apply Z.ltb_ge in Hbot];
    [apply Z.eqb_eq in Hidle | apply Z.eqb_neq in Hidle
    | apply Z.eqb_eq in Hidle | apply Z.eqb_neq in Hidle];
    (split; [split; [auto; discriminate | intros; try reflexivity; lia]|]);
    (split; [intros; try lia; eauto | intros m [= <-]; auto]).
Qed.

(** X2.  Whatever the inputs, efficiency_score, pnl_score and the blended
    trading_score are at most 100 and activity_score is between 0 and 100;
    with a volume that is not positive the efficiency_score is 0. *)
Theorem scores_never_exceed_100 (p v : Q) (n : Z) :
  (efficiency_score_of p v <= 100)%Q
  ∧ (pnl_score_of p <= 100)%Q
  ∧ in_0_100 (activity_score_of p n)
  ∧ (blend (efficiency_score_of p v) (pnl_score_of p) (activity_score_of p n)
     <= 100)%Q
  ∧ ((v <= 0)%Q → efficiency_score_of p v = 0%Q).
Proof.
  pose proof (efficiency_score_le_100 p v) as He.
  pose proof (pnl_score_le_100 p) as Hs.
  pose proof (activity_score_in_range p n) as Ha.
  repeat split; try assumption; try apply Ha.
  - apply blend_le_100; [assumption | assumption | apply Ha].
  - intros Hv. unfold efficiency_score_of.
    destruct (Qlt_le_dec 0 v) as [Hpos|_]; [lra | reflexivity].
Qed.

Lemma Qdiv_le_compat_r (p p' d : Q) : (0 < d)%Q → (p <= p')%Q → (p / d <= p' / d)%Q.
Proof.
  intros Hd Hp. unfold Qdiv. apply Qmult_le_compat_r; [exact Hp|].
  apply Qlt_le_weak. by apply Qinv_lt_0_compat.
Qed.

(** X3.  For a fixed volume and a positive trade_count, more pnl never
    lowers a score: efficiency_score, pnl_score, activity_score and
    trading_score are all non-decreasing in pnl. *)
Theorem scores_monotone_in_pnl (p p' v : Q) (n : Z) :
  0 < n → (p <= p')%Q →
  (efficiency_score_of p v <= efficiency_score_of p' v)%Q
  ∧ (pnl_score_of p <= pnl_score_of p')%Q
  ∧ (activity_score_of p n <= activity_score_of p' n)%Q
  ∧ (blend (efficiency_score_of p v) (pnl_score_of p) (activity_score_of p n)
     <= blend (efficiency_score_of p' v) (pnl_score_of p')
          (activity_score_of p' n))%Q.
Proof.
  intros Hn Hp.
  assert (He : (efficiency_score_of p v <= efficiency_score_of p' v)%Q).
  { unfold efficiency_score_of. destruct (Qlt_le_dec 0 v) as [Hv|_]; [|lra].
    apply Q.min_le_compat_l.
    apply Qmult_le_compat_r; [by apply Qdiv_le_compat_r | discriminate]. }
  assert (Hs : (pnl_score_of p <= pnl_score_of p')%Q).
  { apply Q.min_le_compat_l. by apply Qdiv_le_compat_r. }
  assert (Ha : (activity_score_of p n <= activity_score_of p' n)%Q).
  { unfold activity_score_of, profit_per_trade.
    apply Q.min_le_compat_l, Q.max_le_compat_l.
    apply Qmult_le_compat_r; [|discriminate].
    apply Qdiv_le_compat_r; [reflexivity|].
    assert (Hq : (p / inject_Z n <= p' / inject_Z n)%Q).
    { apply Qdiv_le_compat_r; [|exact Hp].
      change 0%Q with (inject_Z 0). rewrite <- Zlt_Qlt. exact Hn. }
    lra. }
  repeat split; try assumption. unfold blend. lra.
Qed.

(** X3 at a trader with four trades whose pnl grows from 2000 to 9000. *)
Lemma scores_monotone_in_pnl_witness :
  0 < 4 ∧ (2000 <= 9000)%Q
  ∧ (efficiency_score_of 2000 10000 <= efficiency_score_of 9000 10000)%Q.
Proof.
  split; [lia|]. split; [discriminate|].
  apply (scores_monotone_in_pnl 2000 9000 10000 4); [lia | discriminate].
Defined.

(** X4.  A trader that the scorer accepts and that did not lose money
    gets scores on the scale: efficiency_score, pnl_score, activity_score
    and trading_score are all between 0 and 100. *)
Theorem gainer_scores_between_0_and_100 (t : TraderRecord) (m : TraderMetrics) :
  (0 <= td_pnl t)%Q →
  calculate_trading_score t = Some m →
  in_0_100 (efficiency_score m)
  ∧ in_0_100 (pnl_score_of (pnl m))
  ∧ in_0_100 (activity_score_of (pnl m) (trade_count m))
  ∧ in_0_100 (trading_score m).
Proof. apply scores_in_range_of_nonneg_pnl. Qed.

(** X4 at a trader with pnl 7000 on a volume of 10000 in five trades. *)
Lemma gainer_scores_between_0_and_100_witness :
  (0 <= td_pnl (mkTraderRecord "A" 7000 10000 5))%Q
  ∧ ∃ m, calculate_trading_score (mkTraderRecord "A" 7000 10000 5) = Some m
         ∧ in_0_100 (trading_score m).
Proof.
  split; [discriminate|]. eexists. split; [reflexivity|].
  apply (gainer_scores_between_0_and_100 (mkTraderRecord "A" 7000 10000 5));
    [discriminate | reflexivity].
Defined.
End ScorerMore.

(** ** Deduplication: order and what is dropped *)

Section SnapshotMore.
Import Scorer Snapshot.

Lemma omap_cons_eq {A B} (f : A → option B) (x : A) (l : list A) :
  omap f (x :: l) = match f x with Some y => y :: omap f l | None => omap f l end.
Proof. reflexivity. Qed.

Lemma omap_length_le {A B} (f : A → option B) (l : list A) :
  (length (omap f l) ≤ length l)%nat.
Proof.
  induction l as [|x l IH]; [reflexivity|].
  rewrite omap_cons_eq. destruct (f x); simpl; lia.
Qed.

(** The loop, started anywhere: it appends to what was processed a
    sub-list of the scored records that remain. *)
Lemma dedup_fold_sublist (traders : list TraderRecord) (seen : gset string)
    (processed : list TraderMetrics) :
  ∃ rest,
    (fold_left dedup_step traders (seen, processed)).2 = processed ++ rest
    ∧ sublist rest (omap calculate_trading_score traders).
Proof.
  revert seen processed. induction traders as [|t ts IH]; intros seen processed.
  - exists []. by rewrite app_nil_r.
  - cbn [fold_left]. rewrite omap_cons_eq. unfold dedup_step at 2.
    destruct (calculate_trading_score t) as [m|] eqn:Hsc.
    + destruct (decide (address m ∈ seen)).
      * destruct (IH seen processed) as (rest & Hrun & Hsub).
        exists rest. split; [exact Hrun | by apply sublist_cons].
      * destruct (IH ({[address m]} ∪ seen) (processed ++ [m]))
          as (rest & Hrun & Hsub).
        exists (m :: rest). rewrite Hrun, <- app_assoc. split; [reflexivity|].
        by apply sublist_skip.
    + apply IH.
Qed.

(** With addresses that are all different and new, the loop drops
    nothing but the rejected records. *)
Lemma dedup_fold_nodup (traders : list TraderRecord) (seen : gset string)
    (processed : list TraderMetrics) :
  NoDup (map td_address traders) →
  (∀ a, a ∈ map td_address traders → a ∉ seen) →
  (fold_left dedup_step traders (seen, processed)).2
    = processed ++ omap calculate_trading_score traders.
Proof.
  revert seen processed. induction traders as [|t ts IH];
    intros seen processed Hnd Hnew.
  - by rewrite app_nil_r.
  - cbn [fold_left map] in *. rewrite omap_cons_eq.
    apply NoDup_cons in Hnd as [Hhd Hnd]. unfold dedup_step at 2.
    destruct (calculate_trading_score t) as [m|] eqn:Hsc.
    + apply score_some in Hsc as [Ha _].
      destruct (decide (address m ∈ seen)) as [Hin|_].
      { exfalso. apply (Hnew (td_address t)); [apply list_elem_of_here|].
        by rewrite <- Ha. }
      rewrite IH, <- app_assoc; [reflexivity | exact Hnd |].
      intros a Hin [->%elem_of_singleton | Hs]%elem_of_union.
      * apply Hhd. by rewrite <- Ha.
      * apply (Hnew a); [by apply list_elem_of_further | exact Hs].
    + apply IH; [exact Hnd|]. intros a Hin. apply Hnew.
      by apply list_elem_of_further.
Qed.

(** X5.  Deduplication only drops: the processed traders are a sub-list,
    in fetch order, of the metrics of the records the scorer accepts, so
    there are no more of them than records fetched, and none has a
    trade_count of 0 or above BOT_TRANSACTION_THRESHOLD. *)
Theorem process_traders_keeps_fetch_order (traders : list TraderRecord) :
  sublist (process_traders traders) (omap calculate_trading_score traders)
  ∧ (length (process_traders traders) ≤ length traders)%nat
  ∧ ∀ m, m ∈ process_traders traders →
         trade_count m ≠ 0
         ∧ trade_count m <= config.BOT_TRANSACTION_THRESHOLD.
Proof.
  destruct (dedup_fold_sublist traders ∅ []) as (rest & Hrun & Hsub).
  unfold process_traders. rewrite Hrun. simpl.
  split; [exact Hsub|]. split.
  - apply sublist_length in Hsub. etransitivity; [exact Hsub|].
    apply omap_length_le.
  - intros m Hm. apply (elem_of_sublist _ _ _ Hm) in Hsub as Hm'. clear Hm.
    rename Hm' into Hm.
    apply list_elem_of_omap in Hm as (t & _ & Hsc).
    pose proof (score_some _ _ Hsc) as [_ Hacc].
    unfold calculate_trading_score in Hsc. rewrite Hacc in Hsc.
    injection Hsc as <-. simpl.
    unfold rejected, config.BOT_TRANSACTION_THRESHOLD in *.
    apply orb_false_iff in Hacc as [Hbot%Z.ltb_ge Hidle%Z.eqb_neq].
    split; [exact Hidle | exact Hbot].
Qed.

(** X6.  When no address occurs twice in the fetch, deduplication drops
    nothing: the processed traders are the metrics of all the records the
    scorer accepts, in fetch order. *)
Theorem process_traders_without_duplicates (traders : list TraderRecord) :
  NoDup (map td_address traders) →
  process_traders traders = omap calculate_trading_score traders.
Proof.
  intros Hnd. unfold process_traders.
  rewrite dedup_fold_nodup; [reflexivity | exact Hnd |].
  intros a _. apply not_elem_of_empty.
Qed.

(** X6 at a fetch of two wallets, the second of which is rejected. *)
Lemma process_traders_without_duplicates_witness :
  NoDup (map td_address
           [mkTraderRecord "X" 2000 10000 4; mkTraderRecord "Y" 9000 10000 0])
  ∧ map address
      (process_traders
         [mkTraderRecord "X" 2000 10000 4; mkTraderRecord "Y" 9000 10000 0])
    = ["X"].
Proof.
  assert (Hnd : NoDup (map td_address
           [mkTraderRecord "X" 2000 10000 4; mkTraderRecord "Y" 9000 10000 0])).
  { simpl. apply NoDup_cons. split; [|apply NoDup_singleton].
    intros H%list_elem_of_singleton. discriminate. }
  split; [exact Hnd|].
  rewrite (process_traders_without_duplicates _ Hnd). reflexivity.
Defined.
End SnapshotMore.

(** ** Holdings: which holdings are listed *)

Section HoldingsMore.
Import Holdings.

(** X7.  A holding passes the filter exactly when its valueUsd is at
    least SIGNIFICANT_HOLDING_THRESHOLD and its symbol is not empty, not
    USDC and not SOL: the test that valueUsd is not zero never decides.
    The output has one string for each holding that passes, so no more
    strings than holdings. *)
Theorem significant_holdings_listed_once (holdings : list Holding) :
  (∀ h, significant h = true
        ↔ (config.SIGNIFICANT_HOLDING_THRESHOLD <= valueUsd h)%Q
          ∧ symbol h ≠ "" ∧ symbol h ≠ "USDC" ∧ symbol h ≠ "SOL")
  ∧ length (formatted_holdings holdings)
      = length (List.filter significant holdings)
  ∧ (length (formatted_holdings holdings) ≤ length holdings)%nat.
Proof.
  split; [|split].
  - intros h. split; [apply significant_spec|].
    intros (Hv & Hne & Hu & Hsol). unfold significant.
    rewrite !andb_true_iff, !negb_true_iff. repeat split.
    + by apply Qle_bool_iff.
    + by apply String.eqb_neq.
    + destruct (Qeq_bool (valueUsd h) 0) eqn:E; [|reflexivity].
      apply Qeq_bool_iff in E.
      unfold config.SIGNIFICANT_HOLDING_THRESHOLD in Hv. lra.
    + apply bool_decide_eq_false. unfold excluded_symbols.
      rewrite !elem_of_cons. intros [?|[?|?%not_elem_of_nil]]; done.
  - unfold formatted_holdings, significant_holdings.
    rewrite length_map. apply Permutation_length, sort_desc_perm.
  - unfold formatted_holdings, significant_holdings.
    rewrite length_map, (Permutation_length (sort_desc_perm _ _)).
    apply filter_length_le.
Qed.
End HoldingsMore.

(** ** The rate limiter and what the fetch loops keep *)

Section ClientMore.
Import Client Invariant.

(** X8.  [_rate_limit] sleeps exactly until [backoff_time] has passed
    since the last call, and not at all when it already has: afterwards
    the clock is the later of the clock before and
    [last_call_time + backoff_time], [last_call_time] is that clock, and a
    sleep, if any, is positive.  Nothing else changes. *)
Theorem rate_limit_waits_out_backoff (st : state) :
  let st' := (_rate_limit st).2 in
  last_call_time st' = clock st'
  ∧ (clock st' == Qmax (clock st) (last_call_time st + backoff_time st))%Q
  ∧ backoff_time st' = backoff_time st
  ∧ holdings_cache st' = holdings_cache st
  ∧ calls st' = calls st
  ∧ (log st' = log st
     ∨ ∃ d, (0 < d)%Q ∧ log st' = log st ++ [Slept Pace d]).
Proof.
  unfold _rate_limit, bind, time_time, get_last_call_time, get_backoff_time.
  destruct (Qlt_le_dec (clock st - last_call_time st) (backoff_time st))
    as [Hlt|Hle]; simpl.
  - repeat split.
    + rewrite Q.max_r by lra. ring.
    + right. eexists. split; [|reflexivity]. lra.
  - repeat split.
    + rewrite Q.max_l by lra. reflexivity.
    + by left.
Qed.

Lemma preserves_ret {A} (P : state → Prop) (a : A) : preserves P (ret a).
Proof. by intros s Hs. Qed.

Lemma preserves_bind {A B} (P : state → Prop) (c : M A) (k : A → M B) :
  preserves P c → (∀ a, preserves P (k a)) → preserves P (bind c k).
Proof.
  intros Hc Hk s Hs. unfold bind. specialize (Hc s Hs).
  destruct (c s) as [a s1]. by apply Hk.
Qed.

(** A property that the primitives keep is kept by the loops, by the two
    fetches and by a whole run. *)
Section Rule.
Variable P : state → Prop.
Variable traders_api : nat → Z → reply TraderRecord.
Variable token_api : nat → string → reply Holding.
Hypothesis Hpace : preserves P _rate_limit.
Hypothesis Hget : ∀ A (api : nat → reply A) r, preserves P (requests_get api r).
Hypothesis Hpause : preserves P (time_sleep Pause 1).
Hypothesis Hlimit : preserves P _handle_rate_limit.
Hypothesis Hreset : preserves P _reset_backoff.
Hypothesis Hcache : ∀ w v, preserves P (cache_set w v).

Lemma page_attempts_preserves (r : nat) (offset : Z) (traders : list TraderRecord) :
  preserves P (page_attempts traders_api r offset traders).
Proof.
  induction r as [|r IH]; cbn [page_attempts]; [apply preserves_ret|].
  apply preserves_bind; [exact Hpace | intros _].
  apply preserves_bind; [apply Hget | intros response].
  destruct response as [e|code body].
  - apply preserves_bind; [exact Hpause | intros _; exact IH].
  - destruct (code =? 429).
    { apply preserves_bind; [exact Hlimit | intros _; exact IH]. }
    destruct (negb (code =? 200)); [apply preserves_ret|].
    destruct body as [data|].
    + destruct (negb (success data)); [apply preserves_ret|].
      destruct (items data); [apply preserves_ret|].
      apply preserves_bind; [exact Hreset | intros _; apply preserves_ret].
    + apply preserves_bind; [exact Hpause | intros _; exact IH].
Qed.

Lemma get_top_traders_preserves (limit : Z) :
  preserves P (get_top_traders traders_api limit).
Proof.
  unfold get_top_traders. generalize (@nil TraderRecord).
  induction (offsets limit) as [|offset os IH]; intros traders;
    cbn [for_offsets]; [apply preserves_ret|].
  apply preserves_bind; [apply page_attempts_preserves | intros traders'; apply IH].
Qed.

Lemma holdings_attempts_preserves (r : nat) (w : string) :
  preserves P (holdings_attempts token_api r w).
Proof.
  induction r as [|r IH]; cbn [holdings_attempts]; [apply preserves_ret|].
  apply preserves_bind; [exact Hpace | intros _].
  apply preserves_bind; [apply Hget | intros response].
  destruct response as [e|code body].
  - apply preserves_bind; [exact Hpause | intros _; exact IH].
  - destruct (code =? 429).
    { apply preserves_bind; [exact Hlimit | intros _; exact IH]. }
    destruct (negb (code =? 200)); [apply preserves_ret|].
    destruct body as [data|].
    + destruct (negb (success data)); [apply preserves_ret|].
      destruct (items data).
      * apply preserves_bind; [apply Hcache | intros _; apply preserves_ret].
      * apply preserves_bind; [apply Hcache | intros _].
        apply preserves_bind; [exact Hreset | intros _; apply preserves_ret].
    + apply preserves_bind; [exact Hpause | intros _; exact IH].
Qed.

Lemma get_wallet_holdings_preserves (w : string) :
  preserves P (get_wallet_holdings token_api w).
Proof.
  unfold get_wallet_holdings.
  apply preserves_bind; [by intros s Hs | intros cached].
  destruct cached; [apply preserves_ret | apply holdings_attempts_preserves].
Qed.

Lemma attach_holdings_preserves (processed : list TraderMetrics) :
  preserves P (Analyzer.attach_holdings token_api processed).
Proof.
  induction processed as [|t ts IH]; cbn [Analyzer.attach_holdings];
    [apply preserves_ret|].
  apply preserves_bind; [apply get_wallet_holdings_preserves | intros h].
  apply preserves_bind; [exact IH | intros rest; apply preserves_ret].
Qed.

Lemma main_preserves : preserves P (Analyzer.main traders_api token_api).
Proof.
  unfold Analyzer.main.
  apply preserves_bind; [apply get_top_traders_preserves | intros traders].
  apply preserves_bind; [apply attach_holdings_preserves | intros with_h].
  apply preserves_ret.
Qed.
End Rule.

Lemma Forall_snoc_intro {A} (Q : A → Prop) (l : list A) (x : A) :
  Forall Q l → Q x → Forall Q (l ++ [x]).
Proof. intros Hl Hx. apply Forall_app. split; [exact Hl | by constructor]. Qed.

Lemma backoff_ok_pace : preserves backoff_ok _rate_limit.
Proof.
  intros s [Hb Hlog].
  unfold _rate_limit, bind, time_time, get_last_call_time, get_backoff_time in *.
  destruct (Qlt_le_dec (clock s - last_call_time s) (backoff_time s)) as [Hlt|Hle];
    simpl; (split; [exact Hb|]); [|exact Hlog].
  apply Forall_snoc_intro; [exact Hlog|]. simpl. lra.
Qed.

Lemma backoff_ok_get {A} (api : nat → reply A) (r : request) :
  preserves backoff_ok (requests_get api r).
Proof.
  intros s [Hb Hlog]. split; [exact Hb|]. simpl.
  by apply Forall_snoc_intro.
Qed.

Lemma backoff_ok_pause : preserves backoff_ok (time_sleep Pause 1).
Proof.
  intros s [Hb Hlog]. split; [exact Hb|]. simpl.
  apply Forall_snoc_intro; [exact Hlog|]. simpl. discriminate.
Qed.

Lemma backoff_ok_limit : preserves backoff_ok _handle_rate_limit.
Proof.
  intros s [Hb Hlog]. unfold min_call_interval in Hb.
  split; simpl; [unfold min_call_interval; lra|].
  apply Forall_snoc_intro; [exact Hlog|]. simpl. lra.
Qed.

Lemma backoff_ok_reset : preserves backoff_ok _reset_backoff.
Proof. intros s [Hb Hlog]. split; [apply Qle_refl | exact Hlog]. Qed.

Lemma backoff_ok_cache (w : string) (v : list string) :
  preserves backoff_ok (cache_set w v).
Proof. by intros s [Hb Hlog]. Qed.

(** X9.  From a state whose backoff interval is at least the minimum of
    half a second and whose sleeps so far were not negative, the trader
    fetch, any holdings fetch and a whole run of [main] end in such a
    state again, whatever the upstream answers: the backoff interval never
    falls below the minimum and [time.sleep] is never given a negative
    duration. *)
Theorem fetches_keep_backoff_ok (traders_api : nat → Z → reply TraderRecord)
    (token_api : nat → string → reply Holding) (st : state) :
  backoff_ok st →
  (∀ limit, backoff_ok (get_top_traders traders_api limit st).2)
  ∧ (∀ w, backoff_ok (get_wallet_holdings token_api w st).2)
  ∧ backoff_ok (Analyzer.main traders_api token_api st).2.
Proof.
  intros Hok. split; [|split].
  - intros limit.
    apply (get_top_traders_preserves backoff_ok traders_api backoff_ok_pace
             (@backoff_ok_get) backoff_ok_pause backoff_ok_limit
             backoff_ok_reset limit st Hok).
  - intros w.
    apply (get_wallet_holdings_preserves backoff_ok token_api backoff_ok_pace
             (@backoff_ok_get) backoff_ok_pause backoff_ok_limit
             backoff_ok_reset backoff_ok_cache w st Hok).
  - apply (main_preserves backoff_ok traders_api token_api backoff_ok_pace
             (@backoff_ok_get) backoff_ok_pause backoff_ok_limit
             backoff_ok_reset backoff_ok_cache st Hok).
Qed.

(** X9 at a fresh analyzer and an upstream that always replies 429. *)
Lemma fetches_keep_backoff_ok_witness :
  backoff_ok Scenario.start
  ∧ backoff_ok
      (Analyzer.main (λ i _, Scenario.always (Responds 429 None) i)
         (λ i _, Scenario.always (Responds 429 None) i) Scenario.start).2.
Proof.
  assert (Hok : backoff_ok Scenario.start).
  { split; [apply Qle_refl | constructor]. }
  split; [exact Hok|].
  apply (fetches_keep_backoff_ok
           (λ i _, Scenario.always (Responds 429 None) i)
           (λ i _, Scenario.always (Responds 429 None) i) Scenario.start Hok).
Defined.
End ClientMore.

(** ** Backoff, offsets and pages *)

Section FetchMore.
Import Client.
Variable traders_api : nat → Z → reply TraderRecord.
Variable token_api : nat → string → reply Holding.

(** One iteration of a loop: pace, then issue the request. *)
Ltac iterate st :=
  let st1 := fresh "st1" in
  let Hrl := fresh "Hrl" in
  let Hobs := fresh "Hobs" in
  destruct (rate_limit_spec st) as (st1 & Hrl & Hobs);
  injection Hobs as ? ? ? ? ? ?;
  cbn [holdings_attempts page_attempts];
  unfold bind at 1; rewrite Hrl;
  unfold bind at 1; unfold requests_get at 1; cbn beta iota;
  replace (calls st1) with (calls st) by congruence.

(** A decoded holdings reply, with the backoff it leaves: an empty list
    keeps the interval, a non-empty one resets it. *)
Lemma holdings_attempts_success_backoff (r : nat) (w : string) (st : state)
    (holdings : list Holding) :
  result (token_api (calls st) w) = Responds 200 (Some (mkPayload true holdings)) →
  backoff_time (holdings_attempts token_api (S r) w st).2
    = match holdings with
      | [] => backoff_time st
      | _ => min_call_interval
      end.
Proof.
  intros Ho. iterate st. rewrite Ho.
  cbn [Z.eqb Pos.eqb negb success items].
  destruct holdings as [|h hs]; simpl; congruence.
Qed.

Lemma backoff_after_le (b b' : Q) (n : nat) :
  (b <= b')%Q → (backoff_after b n <= backoff_after b' n)%Q.
Proof.
  revert b b'. induction n as [|n IH]; intros b b' Hb; simpl; [exact Hb|].
  apply IH. lra.
Qed.

Lemma backoff_after_grows (b : Q) (n : nat) :
  (0 <= b)%Q → (b <= backoff_after b n)%Q.
Proof.
  revert b. induction n as [|n IH]; intros b Hb; simpl; [lra|].
  eapply Qle_trans; [|apply IH; lra]. lra.
Qed.

Lemma backoff_after_S (b : Q) (n : nat) :
  (0 <= b)%Q → (backoff_after b n <= backoff_after b (S n))%Q.
Proof. intros Hb. simpl. apply backoff_after_le. lra. Qed.

(** The holdings loop leaves a backoff interval between the minimum and
    what [remaining] doublings make of the one it found. *)
Lemma holdings_attempts_backoff (r : nat) (w : string) (st : state) :
  (min_call_interval <= backoff_time st)%Q →
  let st' := (holdings_attempts token_api r w st).2 in
  (min_call_interval <= backoff_time st')%Q
  ∧ (backoff_time st' <= backoff_after (backoff_time st) r)%Q.
Proof.
  revert st. induction r as [|r IH]; intros st Hb; [simpl; lra|].
  assert (H0 : (0 <= backoff_time st)%Q) by (unfold min_call_interval in Hb; lra).
  destruct (outcome_cases (result (token_api (calls st) w)))
    as [Ho | [Ho | [l Ho]]].
  - destruct (holdings_attempts_retry token_api r w st Ho) as (st1 & Hrun & Hobs).
    cbn zeta in Hobs. injection Hobs as _ Hb1 _ _ _ _. rewrite Hrun.
    destruct (IH st1) as [Hlo Hhi].
    { rewrite Hb1. destruct (is_429 _); lra. }
    split; [exact Hlo|]. eapply Qle_trans; [exact Hhi|].
    rewrite Hb1. destruct (is_429 _); [simpl; lra|].
    by apply backoff_after_S.
  - destruct (holdings_attempts_abandon token_api r w st Ho) as (st' & Hrun & Hobs).
    injection Hobs as _ Hb1 _ _ _ _. cbv zeta. rewrite Hrun. cbn [snd].
    rewrite Hb1. split; [exact Hb|]. by apply backoff_after_grows.
  - cbv zeta. rewrite (holdings_attempts_success_backoff r w st l Ho).
    destruct l; (split; [first [exact Hb | apply Qle_refl]|]).
    + by apply backoff_after_grows.
    + eapply Qle_trans; [exact Hb|]. by apply backoff_after_grows.
Qed.

(** X10.  A holdings fetch leaves a backoff interval that is at least the
    minimum and at most eight times the one it found: three attempts can
    double it three times and no more. *)
Theorem holdings_fetch_bounds_backoff (w : string) (st : state) :
  (min_call_interval <= backoff_time st)%Q →
  let st' := (get_wallet_holdings token_api w st).2 in
  (min_call_interval <= backoff_time st')%Q
  ∧ (backoff_time st' <= 8 * backoff_time st)%Q.
Proof.
  intros Hb. cbv zeta.
  destruct (holdings_cache st !! w) as [l|] eqn:Hc.
  - rewrite (get_wallet_holdings_hit token_api w st l Hc). simpl.
    unfold min_call_interval in *. lra.
  - rewrite (get_wallet_holdings_miss token_api w st Hc).
    destruct (holdings_attempts_backoff max_retries w st Hb) as [Hlo Hhi].
    split; [exact Hlo|]. eapply Qle_trans; [exact Hhi|].
    unfold max_retries. simpl. lra.
Qed.

(** X11.  A holdings fetch that gets its decoded reply after [n] 429
    replies resets the backoff interval when the reply lists holdings,
    and leaves it at its [n] times doubled value when the list is empty:
    the empty result is cached and returned before the reset. *)
Theorem empty_holdings_do_not_reset_backoff (w : string) (st : state)
    (n : nat) (holdings : list Holding) :
  holdings_cache st !! w = None →
  (n < 3)%nat →
  (∀ i, (i < n)%nat → is_429 (result (token_api (calls st + i) w)) = true) →
  result (token_api (calls st + n) w)
    = Responds 200 (Some (mkPayload true holdings)) →
  backoff_time (get_wallet_holdings token_api w st).2
    = match holdings with
      | [] => backoff_after (backoff_time st) n
      | _ => min_call_interval
      end.
Proof.
  intros Hmiss Hn H Hok. rewrite (get_wallet_holdings_miss token_api w st Hmiss).
  destruct (holdings_attempts_429s token_api n (3 - n) w st H)
    as (st1 & Hrun & Hobs).
  injection Hobs as Hcalls Hb _ _ _ _.
  replace (n + (3 - n))%nat with 3%nat in Hrun by lia.
  unfold max_retries. rewrite Hrun.
  destruct (3 - n)%nat as [|r] eqn:Hr; [lia|].
  rewrite <- Hcalls in Hok.
  rewrite (holdings_attempts_success_backoff r w st1 holdings Hok).
  by rewrite Hb.
Qed.
End FetchMore.

Section FetchExamples.
Import Client Scenario.

(** X10 at a fresh analyzer and an upstream that always replies 429. *)
Lemma holdings_fetch_bounds_backoff_witness :
  (min_call_interval <= backoff_time start)%Q
  ∧ (backoff_time
       (get_wallet_holdings (λ i _, always (Responds 429 None) i) "W" start).2
     <= 8 * backoff_time start)%Q.
Proof.
  assert (Hb : (min_call_interval <= backoff_time start)%Q) by apply Qle_refl.
  split; [exact Hb|].
  apply (holdings_fetch_bounds_backoff
           (λ i _, always (Responds 429 None) i) "W" start Hb).
Defined.

(** X11 at two 429 replies followed by an empty holdings list. *)
Lemma empty_holdings_do_not_reset_backoff_witness :
  holdings_cache start !! "W" = None ∧ (2 < 3)%nat
  ∧ backoff_time
      (get_wallet_holdings
         (λ i _, first_then 2 (Responds 429 None) (ok []) i) "W" start).2
    = backoff_after (backoff_time start) 2.
Proof.
  split; [reflexivity|]. split; [lia|].
  apply (empty_holdings_do_not_reset_backoff
           (λ i _, first_then 2 (Responds 429 None) (ok []) i)
           "W" start 2 []); [reflexivity | lia | | reflexivity].
  intros i Hi. destruct i as [|[|i]]; [reflexivity | reflexivity | lia].
Defined.
End FetchExamples.

(** ** The offsets and pages of the trader fetch *)

Section OffsetsMore.
Import Client.
Variable traders_api : nat → Z → reply TraderRecord.

(** [range(0, limit, 10)]: the multiples of 10 from 0 up to, and not
    including, the limit. *)
Lemma elem_of_offsets (limit o : Z) :
  o ∈ offsets limit ↔ 0 <= o < limit ∧ o mod 10 = 0.
Proof.
  unfold offsets. rewrite list_elem_of_fmap. split.
  - intros (i & -> & Hi). apply list_elem_of_In, in_seq in Hi.
    destruct Hi as [_ Hi]. simpl in Hi.
    assert (Z.of_nat i < (limit + 9) / 10) by lia.
    split; [|by rewrite Z.mul_comm, Z_mod_mult].
    pose proof (Z.mul_div_le (limit + 9) 10 ltac:(lia)). lia.
  - intros [[Hlo Hhi] Hmod].
    exists (Z.to_nat (o / 10)). split.
    + rewrite Z2Nat.id by (apply Z.div_pos; lia).
      pose proof (Z.div_mod o 10 ltac:(lia)). lia.
    + apply list_elem_of_In, in_seq. simpl. split; [lia|].
      apply Z2Nat.inj_lt; [apply Z.div_pos; lia | |].
      * apply Z.div_pos; lia.
      * apply Z.div_lt_upper_bound; [lia|].
        pose proof (Z.div_mod o 10 ltac:(lia)).
        pose proof (Z.div_mod (limit + 9) 10 ltac:(lia)).
        pose proof (Z.mod_pos_bound (limit + 9) 10 ltac:(lia)). lia.
Qed.

Lemma offsets_nonpositive (limit : Z) : limit <= 0 → offsets limit = [].
Proof.
  intros Hl. unfold offsets.
  replace (Z.to_nat ((limit + 9) / 10)) with O; [reflexivity|].
  assert ((limit + 9) / 10 <= 0); [|lia].
  apply Z.lt_succ_r. apply Z.div_lt_upper_bound; lia.
Qed.

(** The requests of the loop over the offsets, whatever the upstream
    answers; the cache is not touched. *)
Lemma for_offsets_requests (os : list Z) (traders : list TraderRecord)
    (st : state) :
  ∃ new traders' st',
    for_offsets traders_api os traders st = (traders', st')
    ∧ requests_of (log st') = requests_of (log st) ++ new
    ∧ (∀ r, r ∈ new ↔ ∃ o, o ∈ os ∧ r = GetTraders o)
    ∧ (length os ≤ length new ≤ 3 * length os)%nat
    ∧ holdings_cache st' = holdings_cache st
    ∧ calls st' = (calls st + length new)%nat.
Proof.
  revert traders st. induction os as [|offset os IH]; intros traders st.
  - exists [], traders, st. rewrite app_nil_r. repeat split; try (simpl; lia).
    + intros Hr. by apply not_elem_of_nil in Hr.
    + intros (o & Ho & _). by apply not_elem_of_nil in Ho.
  - destruct (page_attempts_requests traders_api max_retries offset traders st)
      as (k & traders1 & st1 & Hrun & Hk & Hpos & Hcalls & Hreq & Hcache).
    destruct (IH traders1 st1)
      as (new & traders' & st' & Hrun' & Hreq' & Hmem & Hlen & Hcache' & Hcalls').
    exists (replicate k (GetTraders offset) ++ new), traders', st'.
    cbn [for_offsets]. unfold bind, fetch_page. rewrite Hrun, Hrun'.
    unfold max_retries in *. specialize (Hpos ltac:(lia)).
    split; [reflexivity|]. split; [by rewrite Hreq', Hreq, app_assoc|]. split.
    { intros r. rewrite elem_of_app, elem_of_replicate, Hmem. split.
      - intros [[-> _] | (o & Ho & ->)].
        + exists offset. split; [apply list_elem_of_here | reflexivity].
        + exists o. split; [by apply list_elem_of_further | reflexivity].
      - intros (o & [-> | Ho]%elem_of_cons & ->).
        + left. split; [reflexivity | lia].
        + right. by exists o. }
    rewrite length_app, length_replicate. simpl.
    split; [lia|]. split; [congruence | lia].
Qed.

Lemma offsets_increasing (limit : Z) : StronglySorted Z.lt (offsets limit).
Proof.
  unfold offsets. generalize (Z.to_nat ((limit + 9) / 10)) as n.
  generalize O as i. intros i n. revert i.
  induction n as [|n IH]; intros i; [constructor|].
  simpl. constructor; [apply IH|].
  rewrite List.Forall_forall. intros o (j & <- & Hj)%in_map_iff.
  apply in_seq in Hj. lia.
Qed.

(** X12.  Whatever the upstream answers, the requests of a trader fetch
    go through the multiples of 10 from 0 up to but not including the
    limit, in increasing order, with at least one and at most three
    requests in a row for each of them and no other request; the
    holdings cache is left as it is, and with a limit of 0 or less
    nothing is requested at all. *)
Theorem get_top_traders_requests_exactly_the_offsets (limit : Z) (st : state) :
  ∃ (os : list Z) (ks : list nat) traders st',
    get_top_traders traders_api limit st = (traders, st')
    ∧ StronglySorted Z.lt os
    ∧ (∀ o, o ∈ os ↔ 0 <= o < limit ∧ o mod 10 = 0)
    ∧ length ks = length os
    ∧ Forall (λ k, 1 ≤ k ≤ 3)%nat ks
    ∧ requests_of (log st')
        = requests_of (log st)
            ++ concat (zip_with (λ o k, replicate k (GetTraders o)) os ks)
    ∧ holdings_cache st' = holdings_cache st
    ∧ (limit <= 0 → traders = [] ∧ st' = st).
Proof.
  destruct (get_top_traders_requests traders_api limit st)
    as (ks & traders & st' & Hrun & Hlen & Hks & Hreq).
  destruct (for_offsets_requests (offsets limit) [] st)
    as (new & traders2 & st2 & Hrun2 & _ & _ & _ & Hcache & _).
  unfold get_top_traders in Hrun. rewrite Hrun in Hrun2.
  injection Hrun2 as <- <-.
  exists (offsets limit), ks, traders, st'. unfold get_top_traders.
  split; [exact Hrun|]. split; [apply offsets_increasing|].
  split; [apply elem_of_offsets|]. split; [exact Hlen|].
  split; [exact Hks|]. split; [exact Hreq|]. split; [exact Hcache|].
  intros Hl. rewrite (offsets_nonpositive limit Hl) in Hrun.
  simpl in Hrun. by injection Hrun as <- <-.
Qed.

(** With pages that always decode, each offset costs one request and the
    pages are appended in order. *)
Lemma for_offsets_all_decoded (page : Z → list TraderRecord) (os : list Z)
    (traders : list TraderRecord) (st : state) :
  (∀ i offset,
     result (traders_api i offset)
       = Responds 200 (Some (mkPayload true (page offset)))) →
  ∃ st',
    for_offsets traders_api os traders st
      = (traders ++ concat (map page os), st')
    ∧ requests_of (log st') = requests_of (log st) ++ map GetTraders os
    ∧ sleeps_of Backoff (log st') = sleeps_of Backoff (log st)
    ∧ sleeps_of Pause (log st') = sleeps_of Pause (log st).
Proof.
  intros Hok. revert traders st. induction os as [|offset os IH]; intros traders st.
  - exists st. simpl. by rewrite !app_nil_r.
  - destruct (page_attempts_success traders_api 2 offset traders st _ (Hok _ _))
      as (st1 & Hrun & Hobs).
    injection Hobs as _ _ _ Hreq Hbs Hps.
    destruct (IH (traders ++ page offset) st1) as (st' & Hrun' & Hreq' & Hbs' & Hps').
    exists st'. cbn [for_offsets]. unfold bind, fetch_page, max_retries.
    rewrite Hrun, Hrun'. simpl. rewrite <- !app_assoc.
    split; [reflexivity|]. split; [by rewrite Hreq', Hreq, <- app_assoc|].
    split; congruence.
Qed.

(** X13.  When every page request is answered at once with a decoded
    page, the trader fetch returns the pages of the offsets 0, 10, 20, ...
    below the limit, concatenated in that order, after exactly one request
    per offset and without any backoff sleep or pause. *)
Theorem get_top_traders_concatenates_pages (page : Z → list TraderRecord)
    (limit : Z) (st : state) :
  (∀ i offset,
     result (traders_api i offset)
       = Responds 200 (Some (mkPayload true (page offset)))) →
  ∃ st',
    get_top_traders traders_api limit st
      = (concat (map page (offsets limit)), st')
    ∧ requests_of (log st')
        = requests_of (log st) ++ map GetTraders (offsets limit)
    ∧ sleeps_of Backoff (log st') = sleeps_of Backoff (log st)
    ∧ sleeps_of Pause (log st') = sleeps_of Pause (log st).
Proof.
  intros Hok.
  destruct (for_offsets_all_decoded page (offsets limit) [] st Hok)
    as (st' & Hrun & Hrest).
  exists st'. split; [exact Hrun | exact Hrest].
Qed.
End OffsetsMore.

Section OffsetsExamples.
Import Client Scenario.

(** X13 at an upstream with one trader per page, named after the offset. *)
Lemma get_top_traders_concatenates_pages_witness :
  let page := λ offset : Z,
    [mkTraderRecord (if offset =? 0 then "first" else "later") 1 1 1] in
  let api := λ (i : nat) (offset : Z), always (ok (page offset)) i in
  (∀ i offset,
     result (api i offset) = Responds 200 (Some (mkPayload true (page offset))))
  ∧ map td_address (get_top_traders api 25 start).1
    = ["first"; "later"; "later"].
Proof.
  intros page api. split; [reflexivity|].
  destruct (get_top_traders_concatenates_pages api page 25 start
              (λ _ _, eq_refl)) as (st' & Hrun & _).
  rewrite Hrun. reflexivity.
Defined.
End OffsetsExamples.

(** ** The snapshot that [main] emits *)

Section MainMore.
Import Client.
Variable traders_api : nat → Z → reply TraderRecord.
Variable token_api : nat → string → reply Holding.

(** Step 4 changes the holdings of the traders and nothing else. *)
Lemma attach_holdings_zip (processed : list TraderMetrics) (st : state) :
  ∃ hs, length hs = length processed
        ∧ (Analyzer.attach_holdings token_api processed st).1
          = zip_with Analyzer.with_holdings processed hs.
Proof.
  revert st. induction processed as [|t ts IH]; intros st.
  - by exists [].
  - cbn [Analyzer.attach_holdings]. unfold bind.
    destruct (get_wallet_holdings token_api (address t) st) as [h st1].
    destruct (IH st1) as (hs & Hlen & Hzip).
    destruct (Analyzer.attach_holdings token_api ts st1) as [rest st2].
    exists (h :: hs). simpl in *. by rewrite Hlen, Hzip.
Qed.

Lemma filter_sublist {A} (f : A → bool) (l : list A) :
  sublist (List.filter f l) l.
Proof.
  induction l as [|x l IH]; simpl; [constructor|].
  destruct (f x); by constructor.
Qed.

Lemma StronglySorted_sublist {A} (R : A → A → Prop) (l k : list A) :
  sublist l k → StronglySorted R k → StronglySorted R l.
Proof.
  intros Hsub Hk. revert l Hsub.
  induction Hk as [|x k Hk IH Hall]; intros l Hsub.
  - apply sublist_nil_r in Hsub as ->. constructor.
  - apply sublist_cons_r in Hsub as [Hsub | (l' & -> & Hsub)]; [by apply IH|].
    constructor; [by apply IH|].
    apply Forall_forall. intros y Hy. rewrite Forall_forall in Hall.
    apply Hall. by eapply elem_of_sublist.
Qed.

Lemma StronglySorted_zip_holdings (ts : list TraderMetrics)
    (hs : list (option (list string))) :
  length hs = length ts →
  StronglySorted (PySort.desc trading_score) ts →
  StronglySorted (PySort.desc trading_score)
    (zip_with Analyzer.with_holdings ts hs).
Proof.
  intros Hlen Hs. revert hs Hlen.
  induction Hs as [|t ts Hs IH Hall]; intros hs Hlen; [constructor|].
  destruct hs as [|h hs]; [discriminate|]. simpl in *.
  constructor; [apply IH; lia|].
  apply Forall_forall. intros y Hy.
  apply elem_of_zip_with in Hy as (t' & h' & -> & Ht' & _).
  rewrite Forall_forall in Hall. by apply (Hall t').
Qed.

Lemma map_address_zip_holdings (ts : list TraderMetrics)
    (hs : list (option (list string))) :
  length hs = length ts →
  map address (zip_with Analyzer.with_holdings ts hs) = map address ts.
Proof.
  revert hs. induction ts as [|t ts IH]; intros hs Hlen; [reflexivity|].
  destruct hs as [|h hs]; [discriminate|]. simpl in *. f_equal. apply IH. lia.
Qed.

(** What [main] returns, in terms of the traders fetched. *)
Lemma main_unfold (st : state) :
  ∃ hs,
    let processed :=
      Snapshot.sort_traders
        (Snapshot.process_traders
           (get_top_traders traders_api config.TOP_GAINERS_LIMIT st).1) in
    length hs = length processed
    ∧ (Analyzer.main traders_api token_api st).1
      = List.filter Analyzer.qualified
          (zip_with Analyzer.with_holdings processed hs).
Proof.
  unfold Analyzer.main, bind.
  destruct (get_top_traders traders_api config.TOP_GAINERS_LIMIT st) as [traders st1].
  simpl.
  destruct (attach_holdings_zip
              (Snapshot.sort_traders (Snapshot.process_traders traders)) st1)
    as (hs & Hlen & Hzip).
  exists hs. split; [exact Hlen|].
  destruct (Analyzer.attach_holdings token_api _ st1) as [with_h st2].
  simpl in *. by rewrite Hzip.
Qed.

Lemma main_addresses_nodup (st : state) :
  NoDup (map address (Analyzer.main traders_api token_api st).1).
Proof.
  destruct (main_unfold st) as (hs & Hlen & Hout). cbv zeta in *. rewrite Hout.
  eapply sublist_NoDup; [|apply (fmap_sublist address), filter_sublist].
  rewrite map_address_zip_holdings by exact Hlen.
  unfold Snapshot.sort_traders.
  rewrite (Permutation_map address (sort_desc_perm trading_score _)).
  apply (dedup_invariant _).
Qed.

Lemma current_df_wallets (out : list TraderMetrics) :
  map Wallet (Output.current_df (Output.csv_rows out)) = map address out.
Proof.
  unfold Output.current_df, Output.csv_rows. rewrite !map_map. reflexivity.
Qed.

(** X14.  Whatever the upstream answers, the traders that [main] emits
    are non-increasing by trading_score, have different addresses, each
    have at least MIN_SIGNIFICANT_HOLDINGS holdings, and each are one of
    the processed traders of the fetch with its holdings attached. *)
Theorem main_emits_sorted_unique_qualified (st : state) :
  let out := (Analyzer.main traders_api token_api st).1 in
  StronglySorted (PySort.desc trading_score) out
  ∧ NoDup (map address out)
  ∧ (∀ t, t ∈ out →
       ∃ l, top_holdings t = Some l
            ∧ (config.MIN_SIGNIFICANT_HOLDINGS ≤ length l)%nat)
  ∧ (∀ t, t ∈ out →
       ∃ m h,
         m ∈ Snapshot.process_traders
               (get_top_traders traders_api config.TOP_GAINERS_LIMIT st).1
         ∧ t = Analyzer.with_holdings m h).
Proof.
  destruct (main_unfold st) as (hs & Hlen & Hout). cbv zeta in *. rewrite Hout.
  set (fetched := (get_top_traders traders_api config.TOP_GAINERS_LIMIT st).1) in *.
  split; [|split; [|split]].
  - eapply StronglySorted_sublist; [apply filter_sublist|].
    apply StronglySorted_zip_holdings; [exact Hlen|].
    apply sort_desc_strongly_sorted.
  - rewrite <- Hout. apply main_addresses_nodup.
  - intros t Ht. apply list_elem_of_In, filter_In in Ht as [_ Hq].
    unfold Analyzer.qualified in Hq.
    destruct (top_holdings t) as [[|x l]|]; try discriminate.
    eexists. split; [reflexivity|]. by apply bool_decide_eq_true in Hq.
  - intros t Ht. apply list_elem_of_In, filter_In in Ht as [Hin _].
    apply list_elem_of_In, elem_of_zip_with in Hin as (m & h & -> & Hm & _).
    exists m, h. split; [|reflexivity].
    apply list_elem_of_In.
    apply (Permutation_in _ (sort_desc_perm trading_score _)).
    by apply list_elem_of_In.
Qed.


(** X16.  The two stages composed: whatever the upstream answers and
    whatever the ledger holds, after [update_scores] has read the rows
    that [main] wrote, the ledger has for every emitted trader a record
    with the trader's address, stamped with the day of the run.  If the
    ledger that was read had the address, its first record with it
    having score S0 and appearances k, the record has score
    0.7*S0 + 0.3*trading_score and appearances k+1; if it had not, the
    record has the trading_score and one appearance. *)
Theorem pipeline_reconciles_every_emitted_trader (st : state)
    (today : string) (hist : list LedgerRecord) :
  let out := (Analyzer.main traders_api token_api st).1 in
  let ledger :=
    Ledger.update_scores today hist (Output.current_df (Output.csv_rows out)) in
  Forall
    (λ t, ∃ rec,
       rec ∈ ledger
       ∧ Wallet_Address rec = address t
       ∧ last_seen rec = today
       ∧ (∀ (before after : list LedgerRecord) (old : LedgerRecord),
            hist = before ++ old :: after →
            Wallet_Address old = address t →
            address t ∉ map Wallet_Address before →
            (composite_score rec
             == (7 # 10) * composite_score old + (3 # 10) * trading_score t)%Q
            ∧ appearances rec = appearances old + 1)
       ∧ (address t ∉ map Wallet_Address hist →
          composite_score rec = trading_score t ∧ appearances rec = 1))
    out.
Proof.
  intros out ledger. apply Forall_forall. intros t Ht.
  assert (Hnd : NoDup (map Wallet (Output.current_df (Output.csv_rows out)))).
  { rewrite current_df_wallets. apply main_addresses_nodup. }
  apply (update_scores_known_or_new today hist
           (Output.current_df (Output.csv_rows out))
           (Output.analysis_row (Output.csv_row t)) Hnd).
  unfold Output.current_df, Output.csv_rows.
  by apply list_elem_of_fmap_2, list_elem_of_fmap_2.
Qed.
End MainMore.

(** ** The ledger after reconciliation *)

Section LedgerMore.
Import Ledger.

Lemma assign_score_address (w : string) (s : Q) (n : Z) (r : LedgerRecord) :
  Wallet_Address (assign_score w s n r) = Wallet_Address r.
Proof. unfold assign_score. by destruct (has_wallet w r). Qed.

Lemma touch_address (today : string) (ws : list string) (r : LedgerRecord) :
  Wallet_Address (touch today ws r) = Wallet_Address r.
Proof. unfold touch. by case_bool_decide. Qed.

Lemma first_row_is_Some (w : string) (df : list LedgerRecord) :
  is_Some (first_row w df) ↔ w ∈ map Wallet_Address df.
Proof.
  split.
  - intros [r [Hin Hw]%first_row_some]. rewrite <- Hw.
    by apply list_elem_of_fmap_2.
  - intros (r & -> & Hin)%list_elem_of_fmap.
    destruct (first_row (Wallet_Address r) df) as [r'|] eqn:E; [by eexists|].
    by destruct (first_row_none _ _ E r Hin).
Qed.

(** The addresses after one row: as before when the wallet is known, one
    more at the end when it is not. *)
Lemma process_row_addresses (today : string) (df : list LedgerRecord)
    (row : AnalysisRow) :
  map Wallet_Address (process_row today df row)
  = if bool_decide (Wallet row ∈ map Wallet_Address df)
    then map Wallet_Address df
    else map Wallet_Address df ++ [Wallet row].
Proof.
  unfold process_row.
  destruct (first_row (Wallet row) df) as [old|] eqn:E.
  - rewrite bool_decide_eq_true_2 by (apply first_row_is_Some; by rewrite E).
    rewrite map_map. apply map_ext. intros r. apply assign_score_address.
  - rewrite bool_decide_eq_false_2.
    + by rewrite map_app.
    + intros [r Hr]%first_row_is_Some. congruence.
Qed.

Lemma fold_process_row_addresses (today : string) (rows : list AnalysisRow)
    (df : list LedgerRecord) :
  let merged := fold_left (process_row today) rows df in
  (∀ a, a ∈ map Wallet_Address merged
        ↔ a ∈ map Wallet_Address df ∨ a ∈ map Wallet rows)
  ∧ (NoDup (map Wallet_Address df) → NoDup (map Wallet_Address merged))
  ∧ (length df ≤ length merged ≤ length df + length rows)%nat.
Proof.
  revert df. induction rows as [|row rows IH]; intros df.
  - simpl. repeat split; try lia; auto.
    + intros [?|[]%not_elem_of_nil]. done.
  - cbn [fold_left]. destruct (IH (process_row today df row)) as (Hmem & Hnd & Hlen).
    pose proof (process_row_addresses today df row) as Ha.
    assert (Hl : length (process_row today df row)
                 = length (map Wallet_Address (process_row today df row)))
      by (by rewrite length_map).
    cbv zeta. split; [|split].
    + intros a. rewrite Hmem, Ha. simpl. rewrite elem_of_cons.
      case_bool_decide as Hin.
      * split; [intros [?|?]; auto | intros [?|[->|?]]; auto].
      * rewrite elem_of_app, list_elem_of_singleton. tauto.
    + intros Hdf. apply Hnd. rewrite Ha. case_bool_decide as Hin; [exact Hdf|].
      apply NoDup_app. split; [exact Hdf|]. split; [|apply NoDup_singleton].
      intros a Ha1 ->%list_elem_of_singleton. contradiction.
    + rewrite Ha in Hl. case_bool_decide;
        rewrite ?length_app, length_map in Hl; simpl in *; lia.
Qed.

Lemma update_scores_perm (today : string) (hist : list LedgerRecord)
    (current_df : list AnalysisRow) :
  Permutation (update_scores today hist current_df)
    (map (touch today (map Wallet current_df))
       (fold_left (process_row today) current_df hist)).
Proof. unfold update_scores, sort_values. apply sort_desc_perm. Qed.

Lemma update_scores_addresses (today : string) (hist : list LedgerRecord)
    (current_df : list AnalysisRow) :
  Permutation (map Wallet_Address (update_scores today hist current_df))
    (map Wallet_Address (fold_left (process_row today) current_df hist)).
Proof.
  rewrite (Permutation_map Wallet_Address (update_scores_perm _ _ _)).
  rewrite map_map. erewrite map_ext; [reflexivity|].
  intros r. apply touch_address.
Qed.

(** X17.  The ledger only grows: the addresses after a reconciliation are
    those of the ledger before together with those of the analysis, so
    no wallet is ever removed, and the ledger has at least as many
    records as before and at most one more for each row. *)
Theorem ledger_only_grows (today : string) (hist : list LedgerRecord)
    (current_df : list AnalysisRow) :
  let ledger := update_scores today hist current_df in
  (∀ a, a ∈ map Wallet_Address ledger
        ↔ a ∈ map Wallet_Address hist ∨ a ∈ map Wallet current_df)
  ∧ (length hist ≤ length ledger ≤ length hist + length current_df)%nat.
Proof.
  destruct (fold_process_row_addresses today current_df hist) as (Hmem & _ & Hlen).
  cbv zeta in *. split.
  - intros a. rewrite <- Hmem.
    by rewrite (update_scores_addresses today hist current_df).
  - rewrite (Permutation_length (update_scores_perm _ _ _)), length_map.
    exact Hlen.
Qed.

Lemma process_row_appearances (today : string) (df : list LedgerRecord)
    (row : AnalysisRow) :
  Forall (λ r, 1 <= appearances r) df →
  Forall (λ r, 1 <= appearances r) (process_row today df row).
Proof.
  intros Hdf. unfold process_row.
  destruct (first_row (Wallet row) df) as [old|] eqn:E.
  - apply first_row_some in E as [Hin _].
    rewrite Forall_forall in Hdf. pose proof (Hdf old Hin) as Hold.
    apply Forall_forall. intros r' (r & -> & Hr)%list_elem_of_fmap.
    unfold assign_score. destruct (has_wallet (Wallet row) r); simpl; [lia|].
    by apply Hdf.
  - apply Forall_app. split; [exact Hdf|]. constructor; [simpl; lia|constructor].
Qed.

(** X18.  A well-formed ledger stays well-formed: if no address occurs
    twice and every record has appeared at least once, the same holds
    after a reconciliation, whatever the analysis holds, repeated wallets
    included. *)
Theorem well_formed_ledger_stays_well_formed (today : string)
    (hist : list LedgerRecord) (current_df : list AnalysisRow) :
  NoDup (map Wallet_Address hist) →
  Forall (λ r, 1 <= appearances r) hist →
  let ledger := update_scores today hist current_df in
  NoDup (map Wallet_Address ledger)
  ∧ Forall (λ r, 1 <= appearances r) ledger.
Proof.
  intros Hnd Happ. cbv zeta. split.
  - rewrite (update_scores_addresses today hist current_df).
    by apply (fold_process_row_addresses today current_df hist).
  - assert (Hm : Forall (λ r, 1 <= appearances r)
                   (fold_left (process_row today) current_df hist)).
    { clear Hnd. revert hist Happ. induction current_df as [|row rows IH];
        intros hist Happ; [exact Happ|].
      simpl. apply IH. by apply process_row_appearances. }
    apply Forall_forall. intros rec Hrec. apply list_elem_of_In in Hrec.
    apply (Permutation_in _ (update_scores_perm _ _ _)) in Hrec.
    apply list_elem_of_In, list_elem_of_fmap in Hrec as (r & -> & Hr).
    rewrite Forall_forall in Hm. specialize (Hm r Hr).
    unfold touch. by case_bool_decide.
Qed.
End LedgerMore.

Section LedgerMore2.
Import Ledger.

(** X19.  After a reconciliation every record of a wallet that the
    analysis lists is stamped with the day of the run, and every record
    of a wallet that it does not list is a record of the ledger before,
    unchanged. *)
Theorem last_seen_marks_the_listed_wallets (today : string)
    (hist : list LedgerRecord) (current_df : list AnalysisRow)
    (rec : LedgerRecord) :
  rec ∈ update_scores today hist current_df →
  (Wallet_Address rec ∈ map Wallet current_df → last_seen rec = today)
  ∧ (Wallet_Address rec ∉ map Wallet current_df → rec ∈ hist).
Proof.
  intros Hrec. split.
  - intros Hin. apply list_elem_of_In in Hrec.
    apply (Permutation_in _ (update_scores_perm _ _ _)) in Hrec.
    apply list_elem_of_In, list_elem_of_fmap in Hrec as (r & -> & _).
    rewrite touch_address in Hin. unfold touch.
    by rewrite bool_decide_eq_true_2.
  - intros Hnot.
    assert (Hkeep : untouched current_df rec = true).
    { unfold untouched. by rewrite bool_decide_eq_false_2. }
    assert (Hf : In rec (List.filter (untouched current_df)
                           (update_scores today hist current_df))).
    { apply filter_In. split; [by apply list_elem_of_In | exact Hkeep]. }
    unfold update_scores, sort_values in Hf.
    apply (Permutation_in _
             (filter_perm _ _ _ (sort_desc_perm composite_score _))) in Hf.
    rewrite touch_frame, fold_process_row_frame in Hf.
    + apply filter_In in Hf as [Hf _]. by apply list_elem_of_In.
    + intros row r. apply untouched_row.
Qed.

(** X19 at a ledger with A and B and an analysis that lists A. *)
Lemma last_seen_marks_the_listed_wallets_witness :
  let hist := [ mkLedgerRecord "A" 50 "2024-05-01" 2;
                mkLedgerRecord "B" 70 "2024-04-30" 1 ] in
  let rec := mkLedgerRecord "B" 70 "2024-04-30" 1 in
  rec ∈ update_scores "2024-05-02" hist [mkAnalysisRow "A" 90]
  ∧ rec ∈ hist.
Proof.
  intros hist rec.
  assert (Hin : rec ∈ update_scores "2024-05-02" hist [mkAnalysisRow "A" 90]).
  { vm_compute. apply list_elem_of_here. }
  split; [exact Hin|].
  apply (last_seen_marks_the_listed_wallets "2024-05-02" hist
           [mkAnalysisRow "A" 90] rec Hin).
  simpl. intros H%list_elem_of_singleton. discriminate.
Defined.

(** X20.  For an analysis that lists each wallet once, the ledger
    written back holds, for every row, a record with the row's address,
    stamped with the day of the run.  If the ledger that was read had the
    address, its first record with it having score S0 and appearances k,
    the record has score 0.7*S0 + 0.3*S1, S1 the score of the row, and
    appearances k+1; if it had not, the record has the score of the row
    and one appearance. *)
Theorem reconciliation_records_every_row (today : string)
    (hist : list LedgerRecord) (current_df : list AnalysisRow)
    (row : AnalysisRow) :
  NoDup (map Wallet current_df) → row ∈ current_df →
  ∃ rec,
    rec ∈ update_scores today hist current_df
    ∧ Wallet_Address rec = Wallet row
    ∧ last_seen rec = today
    ∧ (∀ (before after : list LedgerRecord) (old : LedgerRecord),
         hist = before ++ old :: after →
         Wallet_Address old = Wallet row →
         Wallet row ∉ map Wallet_Address before →
         (composite_score rec
          == (7 # 10) * composite_score old + (3 # 10) * Trading_Score row)%Q
         ∧ appearances rec = appearances old + 1)
    ∧ (Wallet row ∉ map Wallet_Address hist →
       composite_score rec = Trading_Score row ∧ appearances rec = 1).
Proof. apply update_scores_known_or_new. Qed.

(** X20 at a ledger that has B and then A, of score 50 on its second
    appearance, and an analysis of A, scored 90, and of a new wallet C. *)
Lemma reconciliation_records_every_row_witness :
  let b := mkLedgerRecord "B" 80 "2024-05-01" 1 in
  let a := mkLedgerRecord "A" 50 "2024-05-01" 2 in
  let current_df := [mkAnalysisRow "A" 90; mkAnalysisRow "C" 70] in
  NoDup (map Wallet current_df)
  ∧ (∃ rec, rec ∈ update_scores "2024-05-02" [b; a] current_df
            ∧ Wallet_Address rec = "A" ∧ last_seen rec = "2024-05-02"
            ∧ (composite_score rec == 62)%Q ∧ appearances rec = 3)
  ∧ (∃ rec, rec ∈ update_scores "2024-05-02" [b; a] current_df
            ∧ Wallet_Address rec = "C" ∧ last_seen rec = "2024-05-02"
            ∧ composite_score rec = 70%Q ∧ appearances rec = 1).
Proof.
  intros b a current_df.
  assert (Hnd : NoDup (map Wallet current_df)).
  { apply NoDup_cons. split; [|apply NoDup_singleton].
    intros H%list_elem_of_singleton. discriminate. }
  split; [exact Hnd|]. split.
  - destruct (reconciliation_records_every_row "2024-05-02" [b; a]
                current_df (mkAnalysisRow "A" 90) Hnd)
      as (rec & Hrec & Hw & Hseen & Hknown & _);
      [apply list_elem_of_here|].
    destruct (Hknown [b] [] a eq_refl eq_refl) as [Hs Hk].
    { simpl. intros H%list_elem_of_singleton. discriminate. }
    exists rec. do 3 (split; [assumption|]).
    split; [rewrite Hs; reflexivity | exact Hk].
  - destruct (reconciliation_records_every_row "2024-05-02" [b; a]
                current_df (mkAnalysisRow "C" 70) Hnd)
      as (rec & Hrec & Hw & Hseen & _ & Hnew);
      [apply list_elem_of_further, list_elem_of_here|].
    destruct Hnew as [Hs Hk].
    { simpl. rewrite !elem_of_cons. intros [H|[H|H%not_elem_of_nil]];
        [discriminate | discriminate | exact H]. }
    exists rec. by do 3 (split; [assumption|]).
Defined.

(** X18 at a ledger of one wallet and an analysis that lists a wallet
    twice. *)
Lemma well_formed_ledger_stays_well_formed_witness :
  NoDup (map Wallet_Address [mkLedgerRecord "A" 50 "2024-05-01" 2])
  ∧ Forall (λ r, 1 <= appearances r) [mkLedgerRecord "A" 50 "2024-05-01" 2]
  ∧ NoDup (map Wallet_Address
             (update_scores "2024-05-02" [mkLedgerRecord "A" 50 "2024-05-01" 2]
                [mkAnalysisRow "B" 90; mkAnalysisRow "B" 10])).
Proof.
  assert (H1 : NoDup (map Wallet_Address [mkLedgerRecord "A" 50 "2024-05-01" 2]))
    by apply NoDup_singleton.
  assert (H2 : Forall (λ r, 1 <= appearances r)
                 [mkLedgerRecord "A" 50 "2024-05-01" 2]).
  { constructor; [simpl; lia | constructor]. }
  split; [exact H1|]. split; [exact H2|].
  apply (well_formed_ledger_stays_well_formed "2024-05-02" _
           [mkAnalysisRow "B" 90; mkAnalysisRow "B" 10] H1 H2).
Defined.

Lemma fold_process_row_fresh (today : string) (rows : list AnalysisRow)
    (df : list LedgerRecord) :
  NoDup (map Wallet rows) →
  (∀ w, w ∈ map Wallet rows → w ∉ map Wallet_Address df) →
  fold_left (process_row today) rows df
  = df ++ map (λ row, mkLedgerRecord (Wallet row) (Trading_Score row) today 1)
            rows.
Proof.
  revert df. induction rows as [|row rows IH]; intros df Hnd Hnew.
  - by rewrite app_nil_r.
  - simpl in *. apply NoDup_cons in Hnd as [Hhd Hnd].
    assert (E : first_row (Wallet row) df = None).
    { destruct (first_row (Wallet row) df) as [r|] eqn:E; [|reflexivity].
      exfalso. apply (Hnew (Wallet row)); [apply list_elem_of_here|].
      apply first_row_is_Some. by rewrite E. }
    unfold process_row at 2. rewrite E.
    rewrite IH, <- app_assoc; [reflexivity | exact Hnd |].
    intros w Hw. rewrite map_app, elem_of_app. simpl.
    rewrite list_elem_of_singleton. intros [Hdf | ->].
    + apply (Hnew w); [by apply list_elem_of_further | exact Hdf].
    + contradiction.
Qed.

(** X22.  The first run: with an empty ledger and an analysis that lists
    each wallet once, the ledger written is one record per row, with the
    row's score, one appearance and the day of the run, sorted
    non-increasing by score. *)
Theorem first_run_ledger_is_the_analysis (today : string)
    (current_df : list AnalysisRow) :
  NoDup (map Wallet current_df) →
  Permutation (update_scores today [] current_df)
    (map (λ row, mkLedgerRecord (Wallet row) (Trading_Score row) today 1)
       current_df)
  ∧ StronglySorted (PySort.desc composite_score)
      (update_scores today [] current_df).
Proof.
  intros Hnd. split; [|apply sort_desc_strongly_sorted].
  rewrite update_scores_perm, fold_process_row_fresh; [|exact Hnd|].
  - simpl. rewrite map_map. erewrite map_ext_in; [reflexivity|].
    intros row Hrow. unfold touch. simpl.
    rewrite bool_decide_eq_true_2; [reflexivity|].
    by apply list_elem_of_fmap_2, list_elem_of_In.
  - intros w _. apply not_elem_of_nil.
Qed.

(** X22 at an analysis of two wallets. *)
Lemma first_run_ledger_is_the_analysis_witness :
  NoDup (map Wallet [mkAnalysisRow "A" 80; mkAnalysisRow "B" 90])
  ∧ StronglySorted (PySort.desc composite_score)
      (update_scores "2024-05-02" []
         [mkAnalysisRow "A" 80; mkAnalysisRow "B" 90]).
Proof.
  assert (Hnd : NoDup (map Wallet [mkAnalysisRow "A" 80; mkAnalysisRow "B" 90])).
  { simpl. apply NoDup_cons. split; [|apply NoDup_singleton].
    intros H%list_elem_of_singleton. discriminate. }
  split; [exact Hnd|].
  apply (first_run_ledger_is_the_analysis "2024-05-02" _ Hnd).
Defined.
End LedgerMore2.

(** ** The report of a reconciliation and the crystalized list *)

Section ReportMore.
Import Ledger Report.

(** The bookkeeping does not change what happens to the ledger. *)
Lemma process_row_tally_df (today : string) (t : tally) (row : AnalysisRow) :
  historical_df (process_row_tally today t row)
  = process_row today (historical_df t) row.
Proof.
  unfold process_row_tally, process_row.
  by destruct (first_row (Wallet row) (historical_df t)).
Qed.

Lemma process_row_tally_step (today : string) (t : tally) (row : AnalysisRow) :
  let t1 := process_row_tally today t row in
  (wallets_updated t1 + wallets_new t1
   = wallets_updated t + wallets_new t + 1)%nat
  ∧ (length (historical_df t1)
     = length (historical_df t) + (wallets_new t1 - wallets_new t))%nat
  ∧ (wallets_new t ≤ wallets_new t1)%nat
  ∧ (wallets_updated t ≤ wallets_updated t1)%nat
  ∧ (length (significant_changes t) ≤ length (significant_changes t1))%nat
  ∧ (length (significant_changes t1) + wallets_updated t
     ≤ length (significant_changes t) + wallets_updated t1)%nat.
Proof.
  unfold process_row_tally.
  destruct (first_row (Wallet row) (historical_df t)) as [old|]; simpl.
  - destruct (negb (Qle_bool _ 20)); rewrite ?length_app, length_map; simpl;
      repeat split; lia.
  - rewrite length_app. simpl. repeat split; lia.
Qed.

Lemma fold_tally (today : string) (rows : list AnalysisRow) (t : tally) :
  let t' := fold_left (process_row_tally today) rows t in
  historical_df t' = fold_left (process_row today) rows (historical_df t)
  ∧ (wallets_updated t' + wallets_new t'
     = wallets_updated t + wallets_new t + length rows)%nat
  ∧ (length (historical_df t')
     = length (historical_df t) + (wallets_new t' - wallets_new t))%nat
  ∧ (wallets_new t ≤ wallets_new t')%nat
  ∧ (wallets_updated t ≤ wallets_updated t')%nat
  ∧ (length (significant_changes t) ≤ length (significant_changes t'))%nat
  ∧ (length (significant_changes t') + wallets_updated t
     ≤ length (significant_changes t) + wallets_updated t')%nat.
Proof.
  revert t. induction rows as [|row rows IH]; intros t.
  - simpl. repeat split; lia.
  - cbn [fold_left].
    destruct (IH (process_row_tally today t row))
      as (Hdf & Hsum & Hlen & Hnew & Hupd & Hsigm & Hsig).
    destruct (process_row_tally_step today t row)
      as (Hsum1 & Hlen1 & Hnew1 & Hupd1 & Hsigm1 & Hsig1).
    cbv zeta in *. rewrite process_row_tally_df in Hdf.
    split; [exact Hdf|]. simpl. repeat split; lia.
Qed.

(** X24.  The counters of the update summary add up: every row of the
    analysis is counted once, as an update or as a new wallet; the ledger
    grows by exactly the number of new wallets; there are no more
    significant changes than updates; and the ledger that the loop builds
    is the one the reconciliation sorts and writes. *)
Theorem update_summary_counts_every_row (today : string)
    (hist : list LedgerRecord) (current_df : list AnalysisRow) :
  let t := run_loop today hist current_df in
  (wallets_updated t + wallets_new t = length current_df)%nat
  ∧ length (historical_df t) = (length hist + wallets_new t)%nat
  ∧ (length (significant_changes t) ≤ wallets_updated t)%nat
  ∧ update_scores today hist current_df
    = sort_values (map (touch today (map Wallet current_df)) (historical_df t)).
Proof.
  unfold run_loop.
  destruct (fold_tally today current_df (mkTally hist 0 0 []))
    as (Hdf & Hsum & Hlen & Hnew & _ & _ & Hsig).
  cbv zeta in *. simpl in *. repeat split; try lia.
  by rewrite Hdf.
Qed.

Lemma take_all {A} (n : nat) (l : list A) : (length l ≤ n)%nat → take n l = l.
Proof. intros. by apply take_ge. Qed.

Lemma list_to_set_perm (l k : list string) :
  Permutation l k → (list_to_set l : gset string) = list_to_set k.
Proof. intros H. apply set_eq. intros x. by rewrite !elem_of_list_to_set, H. Qed.

(** X25.  While the ledger has at most 300 wallets nothing drops out of
    the top 300, and the wallets added to it are exactly the wallets of
    the analysis that the ledger did not have. *)
Theorem small_ledger_has_no_drops (today : string)
    (hist : list LedgerRecord) (current_df : list AnalysisRow) :
  let ledger := update_scores today hist current_df in
  (length ledger ≤ 300)%nat →
  dropped_from_top hist ledger = ∅
  ∧ ∀ a, a ∈ added_to_top hist ledger
         ↔ a ∈ map Wallet current_df ∧ a ∉ map Wallet_Address hist.
Proof.
  intros ledger Hlen.
  destruct (fold_process_row_addresses today current_df hist) as (Hmem & _ & Hl).
  cbv zeta in *.
  assert (Hlen' : (length hist ≤ 300)%nat).
  { unfold ledger in Hlen.
    rewrite (Permutation_length (update_scores_perm _ _ _)), length_map in Hlen.
    lia. }
  assert (Hprev : ∀ a, a ∈ previous_top_300 hist ↔ a ∈ map Wallet_Address hist).
  { intros a. unfold previous_top_300, nlargest.
    rewrite elem_of_list_to_set, take_all.
    - by rewrite (Permutation_map Wallet_Address (sort_desc_perm _ _)).
    - by rewrite (Permutation_length (sort_desc_perm _ _)). }
  assert (Hnew : ∀ a, a ∈ new_top_300 ledger
                      ↔ a ∈ map Wallet_Address hist ∨ a ∈ map Wallet current_df).
  { intros a. unfold new_top_300.
    rewrite elem_of_list_to_set, take_all by exact Hlen.
    unfold ledger. rewrite (update_scores_addresses today hist current_df).
    apply Hmem. }
  split.
  - apply set_eq. intros a. unfold dropped_from_top.
    rewrite elem_of_difference, Hprev, Hnew, elem_of_empty. tauto.
  - intros a. unfold added_to_top.
    rewrite elem_of_difference, Hprev, Hnew. tauto.
Qed.

(** X25 at a ledger of one wallet and an analysis that brings another. *)
Lemma small_ledger_has_no_drops_witness :
  (length (update_scores "2024-05-02" [mkLedgerRecord "A" 50 "2024-05-01" 2]
             [mkAnalysisRow "B" 90]) ≤ 300)%nat
  ∧ dropped_from_top [mkLedgerRecord "A" 50 "2024-05-01" 2]
      (update_scores "2024-05-02" [mkLedgerRecord "A" 50 "2024-05-01" 2]
         [mkAnalysisRow "B" 90]) = ∅.
Proof.
  assert (Hlen : (length (update_scores "2024-05-02"
                            [mkLedgerRecord "A" 50 "2024-05-01" 2]
                            [mkAnalysisRow "B" 90]) ≤ 300)%nat).
  { vm_compute. lia. }
  split; [exact Hlen|].
  apply (small_ledger_has_no_drops "2024-05-02"
           [mkLedgerRecord "A" 50 "2024-05-01" 2] [mkAnalysisRow "B" 90] Hlen).
Defined.
End ReportMore.

Section CrystalizedMore.
Import Ledger.

Lemma substring_all (s : string) : String.substring 0 (String.length s) s = s.
Proof. induction s as [|c s IH]; simpl; [reflexivity | by rewrite IH]. Qed.

Lemma substring_after_prefix (p a : string) :
  String.substring (String.length p)
    (String.length (p +:+ a) - String.length p) (p +:+ a) = a.
Proof.
  induction p as [|c p IH].
  - change ("" +:+ a) with a. simpl. rewrite Nat.sub_0_r. apply substring_all.
  - change (String c p +:+ a) with (String c (p +:+ a)). simpl. exact IH.
Qed.

Lemma address_of_link_prefixed (a : string) :
  Crystalized.address_of_link (Crystalized.link_prefix +:+ a) = a.
Proof. apply substring_after_prefix. Qed.

Lemma StronglySorted_take_drop {A} (R : A → A → Prop) (n : nat) (l : list A) :
  StronglySorted R l →
  ∀ x y, x ∈ take n l → y ∈ drop n l → R x y.
Proof.
  intros Hs. revert n. induction Hs as [|z l Hs IH Hall]; intros n x y Hx Hy.
  - rewrite take_nil in Hx. by apply not_elem_of_nil in Hx.
  - destruct n as [|n]; [by apply not_elem_of_nil in Hx|].
    simpl in Hx, Hy. apply elem_of_cons in Hx as [->|Hx].
    + rewrite Forall_forall in Hall. apply Hall.
      eapply elem_of_sublist; [exact Hy | apply sublist_drop].
    + by apply (IH n).
Qed.

(** X26.  The ledger that is written back is non-increasing by
    composite_score, and the crystalized list is its top: it has a row
    for each of the first 300 records of the sorted ledger (for all of
    them when there are fewer), in order, with the record's address,
    appearances and score; its scores are non-increasing and no wallet
    that is left out has a higher score than a wallet that is listed.
    The link of a row is the address behind a fixed prefix, and the
    address can be read back from it. *)
Theorem crystalized_list_is_the_top_of_the_ledger (today : string)
    (hist : list LedgerRecord) (current_df : list AnalysisRow) :
  let ledger := update_scores today hist current_df in
  let rows := Crystalized.crystalized_df ledger in
  StronglySorted (PySort.desc composite_score) ledger
  ∧ length rows = Nat.min 300 (length ledger)
  ∧ map (λ r, (Crystalized.Wallet_Address r, Crystalized.Appearances r,
               Crystalized.score r)) rows
    = map (λ r, (Wallet_Address r, appearances r, composite_score r))
        (take 300 ledger)
  ∧ StronglySorted (λ a b, Crystalized.score b <= Crystalized.score a)%Q rows
  ∧ (∀ r rec, r ∈ rows → rec ∈ drop 300 ledger →
       (composite_score rec <= Crystalized.score r)%Q)
  ∧ (∀ r, r ∈ rows →
       Crystalized.Wallet r
         = Crystalized.link_prefix +:+ Crystalized.Wallet_Address r
       ∧ Crystalized.address_of_link (Crystalized.Wallet r)
         = Crystalized.Wallet_Address r).
Proof.
  intros ledger rows.
  assert (Hsorted : StronglySorted (PySort.desc composite_score) ledger)
    by apply sort_desc_strongly_sorted.
  assert (Hrow : ∀ rec, Crystalized.score (Crystalized.format_row rec)
                        = composite_score rec) by (by intros []).
  unfold rows, Crystalized.crystalized_df, Crystalized.format_for_crystalized.
  split; [exact Hsorted|].
  split; [by rewrite length_map, length_take|]. split.
  { rewrite map_map. apply map_ext. by intros []. }
  split.
  { assert (Ht : StronglySorted (PySort.desc composite_score) (take 300 ledger)).
    { eapply StronglySorted_sublist; [apply sublist_take | exact Hsorted]. }
    induction Ht as [|rec l Ht IH Hall]; simpl; constructor; [exact IH|].
    apply Forall_forall. intros r (rec' & -> & Hrec')%list_elem_of_fmap.
    rewrite !Hrow. rewrite Forall_forall in Hall. by apply Hall. }
  split.
  { intros r rec (rec' & -> & Hrec')%list_elem_of_fmap Hrec.
    rewrite Hrow.
    apply (StronglySorted_take_drop _ 300 ledger Hsorted rec' rec Hrec' Hrec). }
  intros r (rec & -> & _)%list_elem_of_fmap. destruct rec as [a s l n]. simpl.
  split; [reflexivity | apply address_of_link_prefixed].
Qed.
End CrystalizedMore.
